(** * inject.py: the remote export resolver and the injection sequence

    A shallow embedding of [src/inject.py].  The Windows calls the script
    makes through [ctypes] are not code of the script: they are taken as a
    record [OS] of responses, and every call the script issues is recorded
    in a chronological trace of [event]s.  Python control flow (early
    [return], raised exceptions, [try]/[finally]) is kept by a small monad
    over that trace. *)

From Stdlib Require Import ZArith List String Ascii Bool Lia.
From Stdlib Require Import Strings.Byte.
Import ListNotations.
Local Open Scope Z_scope.

(* ================================================================== *)
(** ** Bytes and [struct.unpack_from] *)

Definition bytes := list byte.

Definition byte_to_Z (b : byte) : Z := Z.of_N (Byte.to_N b).

(** Little-endian value of a byte string. *)
Fixpoint le_decode (bs : bytes) : Z :=
  match bs with
  | [] => 0
  | b :: r => byte_to_Z b + 256 * le_decode r
  end.

(** [struct.unpack_from(fmt, data, off)[0]] for an unsigned little-endian
    field of [width] bytes: [None] stands for [struct.error] (the buffer
    does not hold [width] bytes from [off]).  Every offset the script
    passes is non-negative. *)
Definition unpack_from (width : nat) (data : bytes) (off : Z) : option Z :=
  let field := firstn width (skipn (Z.to_nat off) data) in
  if (0 <=? off) && Nat.eqb (List.length field) width
  then Some (le_decode field) else None.

Fixpoint bytes_eqb (a b : bytes) : bool :=
  match a, b with
  | [], [] => true
  | x :: a', y :: b' => Byte.eqb x y && bytes_eqb a' b'
  | _, _ => false
  end.

(** [data.split(b'\x00')[0]]: the bytes before the first zero byte, all of
    [data] when it holds none. *)
Fixpoint split0 (data : bytes) : bytes :=
  match data with
  | [] => []
  | b :: r => if Byte.eqb b x00 then [] else b :: split0 r
  end.

(** [(ctypes.c_byte * n)()] after a call that copied [copied] to its start:
    a buffer of exactly [n] bytes, zero where nothing was copied.  Creating
    the buffer is taken to succeed: the [MemoryError] that ctypes raises
    when the interpreter cannot obtain [n] bytes (the three export arrays
    of [find_remote_export] are sized from counts read in the target) is
    not part of this model.  Statements below that are meant to hold
    whatever the target holds therefore say what [find_remote_export]
    does not return, rather than that it returns [None]. *)
Definition buffer (n : Z) (copied : bytes) : bytes :=
  firstn (Z.to_nat n) (copied ++ repeat x00 (Z.to_nat n)).

(** [s.encode('ascii')]: [None] stands for [UnicodeEncodeError]. *)
Definition is_ascii (c : ascii) : bool := (N_of_ascii c <? 128)%N.

Definition encode_ascii (s : string) : option bytes :=
  let cs := list_ascii_of_string s in
  if forallb is_ascii cs then Some (map byte_of_ascii cs) else None.

(** [s.encode('utf-8')] on the characters modelled here (code points below
    256): one byte below 128, two bytes from 128 on. *)
Definition utf8_char (c : ascii) : bytes :=
  let n := N_of_ascii c in
  if (n <? 128)%N then [byte_of_ascii c]
  else match Byte.of_N (192 + n / 64), Byte.of_N (128 + n mod 64) with
       | Some hi, Some lo => [hi; lo]
       | _, _ => []
       end.

Definition encode_utf8 (s : string) : bytes :=
  flat_map utf8_char (list_ascii_of_string s).

(** [s.lower()], character by character, on the code points a [string]
    holds (those below 256): the upper-case letters there are A to Z,
    U+00C0 to U+00D6 and U+00D8 to U+00DE, each 32 below its lower-case
    letter; every other code point is left as it is. *)
Definition is_upper (n : N) : bool :=
  (((65 <=? n) && (n <=? 90))
   || ((192 <=? n) && (n <=? 214))
   || ((216 <=? n) && (n <=? 222)))%N.

Definition lower_char (c : ascii) : ascii :=
  let n := N_of_ascii c in
  if is_upper n then ascii_of_N (n + 32) else c.

Fixpoint lower (s : string) : string :=
  match s with
  | EmptyString => EmptyString
  | String c r => String (lower_char c) (lower r)
  end.

(* ================================================================== *)
(** ** Events, messages and exceptions *)

(** One constructor per message the script prints, carrying the values
    the message is formatted from (the banner of [main] and its build hint
    are one message each). *)
Inductive message :=
| ErrDllNotFound (dll_path : string)
| MsgOpening (process_id : Z)
| ErrOpenFailed (err : Z)
| ErrRunAsAdministrator
| MsgInjector (self_64bit : bool)
| MsgTarget (target_32bit : bool)
| MsgCrossArch
| ErrAllocFailed (err : Z)
| MsgAllocated (dll_size remote_memory : Z)
| ErrWriteFailed (err : Z)
| MsgWrote (bytes_written : Z)
| ErrNoKernel32
| ErrNoLoadLibraryA
| ErrGetProcAddressFailed (err : Z)
| MsgLoadLibraryAt (load_library_addr : Z)
| ErrExceeds32BitRange
| ErrCreateRemoteThreadFailed (err : Z)
| MsgThreadCreated (h_thread : Z)
| MsgWaiting
| MsgSuccess (exit_code : Z)
| WarnLoadLibraryNull
| WarnWaitTimedOut (wait_result : Z)
| MsgBanner (dll_path : string) (self_64bit : bool)
| MsgBuildFirst
| MsgSearching
| ErrProcessNotFound
| MsgFound (process_id : Z)
| MsgInjectionSuccessful
| MsgInjectionFailed.

(** The calls that leave the script. *)
Inductive event :=
| EvOpenProcess (process_id : Z)
| EvIsWow64Process (h : Z)
| EvVirtualAllocEx (h size : Z)
| EvWriteProcessMemory (h addr : Z) (data : bytes) (size : Z)
| EvReadProcessMemory (h addr size : Z)
| EvCreateToolhelp32Snapshot (process_id : Z)
| EvModule32Walk (snap : Z)
| EvGetModuleHandleW
| EvGetProcAddress (h_module : Z)
| EvCreateRemoteThread (h start param : Z)
| EvWaitForSingleObject (h ms : Z)
| EvGetExitCodeThread (h : Z)
| EvCloseHandle (h : Z)
| EvPrint (m : message).

Definition trace := list event.

Inductive exn :=
| UnicodeEncodeError
| AttributeError
| struct_error
| SystemExit (code : Z).

(* ================================================================== *)
(** ** The operating system as the script sees it *)

(** A [MODULEENTRY32] as far as the script reads it: the module name as
    [szModule.decode('utf-8', errors='ignore')] gives it, and the base
    address. *)
Record MODULEENTRY32 := {
  szModule : string;
  modBaseAddr : Z
}.

Record OS := {
  (** [os.path.exists], [os.path.abspath] *)
  path_exists : string -> bool;
  abspath : string -> string;
  (** [sys.argv] and the default payload path built from [__file__] *)
  argv : list string;
  default_dll_path : string;
  (** [psutil.process_iter(['pid', 'name'])]: the pid and the name in
      [proc.info] of each process, in order; the name is [None] where
      psutil could not read it *)
  process_iter : list (Z * option string);
  (** [ctypes.sizeof(ctypes.c_void_p)] *)
  sizeof_void_p : Z;
  get_last_error : Z;
  (** a handle, 0 for NULL *)
  OpenProcess : Z -> Z;
  IsWow64Process : Z -> bool;
  (** an address, 0 for NULL *)
  VirtualAllocEx : Z -> Z -> Z;
  (** the BOOL result and the count stored in [bytes_written] *)
  WriteProcessMemory : Z -> Z -> bytes -> Z -> bool * Z;
  (** the BOOL result and the bytes copied to the start of the caller's
      buffer; the answer may depend on the calls made so far *)
  ReadProcessMemory : trace -> Z -> Z -> Z -> bool * bytes;
  (** the snapshot handle (-1 for INVALID_HANDLE_VALUE) and the entries
      [Module32First]/[Module32Next] walk through *)
  CreateToolhelp32Snapshot : Z -> Z;
  Module32Walk : Z -> list MODULEENTRY32;
  GetModuleHandleW : Z;
  GetProcAddress : Z -> Z;
  CreateRemoteThread : Z -> Z -> Z -> Z;
  WaitForSingleObject : Z -> Z -> Z;
  GetExitCodeThread : Z -> Z
}.

(* ================================================================== *)
(** ** Python control flow over the trace *)

(** How a statement ends: it falls through with a value, the enclosing
    function returns, or an exception is raised. *)
Inductive ctl (R A : Type) :=
| Next (a : A)
| Return (r : R)
| Raise (e : exn).
Arguments Next {R A} a.
Arguments Return {R A} r.
Arguments Raise {R A} e.

Definition M (R A : Type) := trace -> ctl R A * trace.

Definition ret {R A} (a : A) : M R A := fun tr => (Next a, tr).

Definition bind {R A B} (c : M R A) (k : A -> M R B) : M R B :=
  fun tr =>
    match c tr with
    | (Next a, tr') => k a tr'
    | (Return r, tr') => (Return r, tr')
    | (Raise e, tr') => (Raise e, tr')
    end.

Definition return_ {R A} (r : R) : M R A := fun tr => (Return r, tr).
Definition raise {R A} (e : exn) : M R A := fun tr => (Raise e, tr).
Definition emit {R} (e : event) : M R unit := fun tr => (Next tt, tr ++ [e]).
Definition print {R} (m : message) : M R unit := emit (EvPrint m).

Declare Scope py_scope.
Delimit Scope py_scope with py.
Notation "x <- c ;; k" := (bind c (fun x => k))
  (at level 61, c at next level, right associativity) : py_scope.
Notation "' pat <- c ;; k" := (bind c (fun x => match x with pat => k end))
  (at level 61, pat pattern, c at next level, right associativity) : py_scope.
Notation "c ;; k" := (bind c (fun _ => k))
  (at level 61, right associativity) : py_scope.
Local Open Scope py_scope.

(** A call: the callee's [return] (or the value it falls off with) is the
    caller's value; an exception goes on to the caller. *)
Definition call {R R'} (body : M R R) : M R' R :=
  fun tr =>
    match body tr with
    | (Next r, tr') => (Next r, tr')
    | (Return r, tr') => (Next r, tr')
    | (Raise e, tr') => (Raise e, tr')
    end.

(** [try: body finally: fin] *)
Definition try_finally {R A} (body : M R A) (fin : M R unit) : M R A :=
  fun tr =>
    let (c, tr1) := body tr in
    match fin tr1 with
    | (Next _, tr2) => (c, tr2)
    | (Return r, tr2) => (Return r, tr2)
    | (Raise e, tr2) => (Raise e, tr2)
    end.

(** A value or the exception that [None] stands for. *)
Definition or_raise {R A} (e : exn) (o : option A) : M R A :=
  match o with
  | Some a => ret a
  | None => raise e
  end.

(** The value of a call, or the exception that left it. *)
Definition value_or_raise {R A} (r : exn + A) : M R A :=
  match r with
  | inr a => ret a
  | inl e => raise e
  end.

Definition unpack_from_I {R} (data : bytes) (off : Z) : M R Z :=
  or_raise struct_error (unpack_from 4 data off).
Definition unpack_from_H {R} (data : bytes) (off : Z) : M R Z :=
  or_raise struct_error (unpack_from 2 data off).

(** [if c: body] with nothing after it in the branch *)
Definition when {R} (c : bool) (body : M R unit) : M R unit :=
  if c then body else ret tt.

(** [range(n)] *)
Definition range (n : Z) : list Z := map Z.of_nat (seq 0 (Z.to_nat n)).

Section Script.

Variable os : OS.

(** [kernel32.ReadProcessMemory(h, addr, buf, size, byref(bytes_read))]
    on a fresh buffer of [size] bytes: the BOOL and the buffer afterwards.
    The script never looks at [bytes_read]. *)
Definition read_process_memory {R} (h addr size : Z) : M R (bool * bytes) :=
  fun tr =>
    let (ok, copied) := ReadProcessMemory os tr h addr size in
    (Next (ok, buffer size copied), tr ++ [EvReadProcessMemory h addr size]).

(* ================================================================== *)
(** ** [find_remote_export] *)

(** The body of [for i in range(num_names)]. *)
Fixpoint search_names (h_process module_base : Z) (func_name_bytes : bytes)
    (name_rvas_data ordinals_data func_rvas_data : bytes) (idx : list Z)
    : M (option Z) unit :=
  match idx with
  | [] => ret tt
  | i :: rest =>
      name_rva <- unpack_from_I name_rvas_data (i * 4) ;;
      '(_, name_buf) <- read_process_memory h_process (module_base + name_rva) 128 ;;
      let name := split0 name_buf in
      if bytes_eqb name func_name_bytes then
        ordinal <- unpack_from_H ordinals_data (i * 2) ;;
        func_rva <- unpack_from_I func_rvas_data (ordinal * 4) ;;
        return_ (Some (module_base + func_rva))
      else
        search_names h_process module_base func_name_bytes
          name_rvas_data ordinals_data func_rvas_data rest
  end.

Definition find_remote_export_body (h_process module_base : Z)
    (function_name : string) : M (option Z) (option Z) :=
  func_name_bytes <- or_raise UnicodeEncodeError (encode_ascii function_name) ;;
  (* Step 1: DOS header *)
  '(ok, dos_header) <- read_process_memory h_process module_base 64 ;;
  if negb ok then return_ None else
  e_lfanew <- unpack_from_I dos_header 0x3C ;;
  (* Step 2: PE header and optional header *)
  '(ok, pe_data) <- read_process_memory h_process (module_base + e_lfanew) 256 ;;
  if negb ok then return_ None else
  pe_sig <- unpack_from_I pe_data 0 ;;
  if negb (pe_sig =? 0x4550) then return_ None else
  magic <- unpack_from_H pe_data 24 ;;
  export_rva <-
    (if magic =? 0x10B then unpack_from_I pe_data (24 + 96)
     else if magic =? 0x20B then unpack_from_I pe_data (24 + 112)
     else return_ None) ;;
  if export_rva =? 0 then return_ None else
  (* Step 3: export directory *)
  '(ok, ed) <- read_process_memory h_process (module_base + export_rva) 40 ;;
  if negb ok then return_ None else
  num_functions <- unpack_from_I ed 20 ;;
  num_names <- unpack_from_I ed 24 ;;
  func_rvas_rva <- unpack_from_I ed 28 ;;
  name_rvas_rva <- unpack_from_I ed 32 ;;
  ordinals_rva <- unpack_from_I ed 36 ;;
  (* Step 4: the three export arrays *)
  '(_, name_rvas_data) <-
    read_process_memory h_process (module_base + name_rvas_rva) (num_names * 4) ;;
  '(_, ordinals_data) <-
    read_process_memory h_process (module_base + ordinals_rva) (num_names * 2) ;;
  '(_, func_rvas_data) <-
    read_process_memory h_process (module_base + func_rvas_rva) (num_functions * 4) ;;
  (* Step 5: search by name *)
  search_names h_process module_base func_name_bytes
    name_rvas_data ordinals_data func_rvas_data (range num_names) ;;
  ret None.

Definition find_remote_export {R} (h_process module_base : Z)
    (function_name : string) : M R (option Z) :=
  call (find_remote_export_body h_process module_base function_name).

(* ================================================================== *)
(** ** Helper functions *)

(** A [c_void_p] field or result read from Python: NULL reads as [None]. *)
Definition c_void_p_value (p : Z) : option Z :=
  if p =? 0 then None else Some p.

Definition is_target_32bit {R} (h_process : Z) : M R bool :=
  emit (EvIsWow64Process h_process) ;;
  ret (IsWow64Process os h_process).

Definition is_self_64bit : bool := sizeof_void_p os =? 8.

(** [find_process_by_name]: the pid of the first process whose
    lower-cased name is the lower-cased [process_name], [None] when the
    enumeration ends without one.  A name that is [None] has no [lower]:
    the [AttributeError] is not among the exceptions the loop catches and
    leaves the function. *)
Fixpoint first_process (process_name : string)
    (procs : list (Z * option string)) : exn + option Z :=
  match procs with
  | [] => inr None
  | (pid, None) :: _ => inl AttributeError
  | (pid, Some name) :: rest =>
      if String.eqb (lower name) (lower process_name) then inr (Some pid)
      else first_process process_name rest
  end.

Definition find_process_by_name (process_name : string) : exn + option Z :=
  first_process process_name (process_iter os).

(** The [while True] walk of [find_remote_module_base] over the entries of
    the snapshot. *)
Fixpoint walk_modules (module_name : string) (entries : list MODULEENTRY32)
    : option Z :=
  match entries with
  | [] => None
  | me32 :: rest =>
      if String.eqb (lower (szModule me32)) (lower module_name)
      then c_void_p_value (modBaseAddr me32)
      else walk_modules module_name rest
  end.

Definition find_remote_module_base_body (process_id : Z) (module_name : string)
    : M (option Z) (option Z) :=
  emit (EvCreateToolhelp32Snapshot process_id) ;;
  let snap := CreateToolhelp32Snapshot os process_id in
  if (snap =? -1) || (snap =? 2 ^ (8 * sizeof_void_p os) - 1) then return_ None else
  emit (EvModule32Walk snap) ;;
  let found_base := walk_modules module_name (Module32Walk os snap) in
  emit (EvCloseHandle snap) ;;
  return_ found_base.

Definition find_remote_module_base {R} (process_id : Z) (module_name : string)
    : M R (option Z) :=
  call (find_remote_module_base_body process_id module_name).

(* ================================================================== *)
(** ** [inject_dll] *)

Definition WAIT_OBJECT_0 : Z := 0.

(** The [if cross_arch: ... else: ...] that resolves LoadLibraryA. *)
Definition resolve_load_library (cross_arch : bool) (process_id h_process : Z)
    : M bool Z :=
  if cross_arch then
    kernel32_base <- find_remote_module_base process_id "kernel32.dll" ;;
    match kernel32_base with
    | None => print ErrNoKernel32 ;; return_ false
    | Some kernel32_base =>
        load_library_addr <- find_remote_export h_process kernel32_base "LoadLibraryA" ;;
        match load_library_addr with
        | None => print ErrNoLoadLibraryA ;; return_ false
        | Some load_library_addr => ret load_library_addr
        end
    end
  else
    emit EvGetModuleHandleW ;;
    emit (EvGetProcAddress (GetModuleHandleW os)) ;;
    let load_library_addr := GetProcAddress os (GetModuleHandleW os) in
    when (load_library_addr =? 0)
      (print (ErrGetProcAddressFailed (get_last_error os)) ;; return_ false) ;;
    ret load_library_addr.

(** The [try:] block of [inject_dll]. *)
Definition inject_try (process_id h_process : Z) (target_32bit cross_arch : bool)
    (dll_bytes : bytes) (dll_size : Z) : M bool bool :=
  emit (EvVirtualAllocEx h_process dll_size) ;;
  let remote_memory := VirtualAllocEx os h_process dll_size in
  when (remote_memory =? 0)
    (print (ErrAllocFailed (get_last_error os)) ;; return_ false) ;;
  print (MsgAllocated dll_size remote_memory) ;;
  emit (EvWriteProcessMemory h_process remote_memory dll_bytes dll_size) ;;
  let '(ok, bytes_written) :=
    WriteProcessMemory os h_process remote_memory dll_bytes dll_size in
  when (negb ok)
    (print (ErrWriteFailed (get_last_error os)) ;; return_ false) ;;
  print (MsgWrote bytes_written) ;;
  load_library_addr <- resolve_load_library cross_arch process_id h_process ;;
  print (MsgLoadLibraryAt load_library_addr) ;;
  when (target_32bit && (load_library_addr >? 0xFFFFFFFF))
    (print ErrExceeds32BitRange ;; return_ false) ;;
  emit (EvCreateRemoteThread h_process load_library_addr remote_memory) ;;
  let h_thread := CreateRemoteThread os h_process load_library_addr remote_memory in
  when (h_thread =? 0)
    (print (ErrCreateRemoteThreadFailed (get_last_error os)) ;; return_ false) ;;
  print (MsgThreadCreated h_thread) ;;
  print MsgWaiting ;;
  emit (EvWaitForSingleObject h_thread 10000) ;;
  let wait_result := WaitForSingleObject os h_thread 10000 in
  (if wait_result =? WAIT_OBJECT_0 then
     emit (EvGetExitCodeThread h_thread) ;;
     let exit_code := GetExitCodeThread os h_thread in
     if negb (exit_code =? 0) then print (MsgSuccess exit_code)
     else print WarnLoadLibraryNull ;; return_ false
   else print (WarnWaitTimedOut wait_result)) ;;
  emit (EvCloseHandle h_thread) ;;
  return_ true.

Definition inject_dll_body (process_id : Z) (dll_path : string) : M bool bool :=
  when (negb (path_exists os dll_path))
    (print (ErrDllNotFound dll_path) ;; return_ false) ;;
  let dll_path := abspath os dll_path in
  let dll_bytes := encode_utf8 dll_path ++ [x00] in
  let dll_size := Z.of_nat (List.length dll_bytes) in
  print (MsgOpening process_id) ;;
  emit (EvOpenProcess process_id) ;;
  let h_process := OpenProcess os process_id in
  when (h_process =? 0)
    (print (ErrOpenFailed (get_last_error os)) ;;
     print ErrRunAsAdministrator ;; return_ false) ;;
  target_32bit <- is_target_32bit h_process ;;
  let self_64bit := is_self_64bit in
  let cross_arch := self_64bit && target_32bit in
  print (MsgInjector self_64bit) ;;
  print (MsgTarget target_32bit) ;;
  when cross_arch (print MsgCrossArch) ;;
  try_finally
    (inject_try process_id h_process target_32bit cross_arch dll_bytes dll_size)
    (emit (EvCloseHandle h_process)).

Definition inject_dll {R} (process_id : Z) (dll_path : string) : M R bool :=
  call (inject_dll_body process_id dll_path).

(* ================================================================== *)
(** ** [main] *)

Definition TARGET_PROCESS : string := "hl.exe".

Definition main : M unit unit :=
  let dll_path :=
    match argv os with
    | _ :: arg :: _ => arg
    | _ => default_dll_path os
    end in
  print (MsgBanner dll_path is_self_64bit) ;;
  when (negb (path_exists os dll_path))
    (print (ErrDllNotFound dll_path) ;; print MsgBuildFirst ;;
     raise (SystemExit 1)) ;;
  print MsgSearching ;;
  process_id <- value_or_raise (find_process_by_name TARGET_PROCESS) ;;
  match process_id with
  | None => print ErrProcessNotFound ;; raise (SystemExit 1)
  | Some process_id =>
      print (MsgFound process_id) ;;
      ok <- inject_dll process_id dll_path ;;
      if ok then print MsgInjectionSuccessful
      else print MsgInjectionFailed ;; raise (SystemExit 1)
  end.

(** The exit status of the interpreter for the way [main] ended: 0 when it
    falls off its end, the code of [sys.exit], 1 for any other exception. *)
Definition exit_status {A} (c : ctl unit A) : Z :=
  match c with
  | Next _ => 0
  | Return _ => 0
  | Raise (SystemExit code) => code
  | Raise _ => 1
  end.

End Script.

(* ================================================================== *)
(** ** A remote address space *)

(** The target's memory: the byte at an address, [None] where the address
    is not readable. *)
Definition memory := Z -> option byte.

Fixpoint load (m : memory) (addr : Z) (n : nat) : option bytes :=
  match n with
  | O => Some []
  | S k =>
      match m addr, load m (addr + 1) k with
      | Some b, Some r => Some (b :: r)
      | _, _ => None
      end
  end.

(** [ReadProcessMemory] over a memory that does not change: the read
    succeeds when the whole range is readable and copies nothing
    otherwise. *)
Definition memory_read (m : memory) : trace -> Z -> Z -> Z -> bool * bytes :=
  fun _ _ addr size =>
    match load m addr (Z.to_nat size) with
    | Some bs => (true, bs)
    | None => (false, [])
    end.

(** [size] readable zero bytes from [addr]. *)
Definition blank (addr size : Z) : memory :=
  fun a => if (addr <=? a) && (a <? addr + size) then Some x00 else None.

(** [m] with [data] stored from [addr]. *)
Definition poke (addr : Z) (data : bytes) (m : memory) : memory :=
  fun a =>
    if (addr <=? a) && (a <? addr + Z.of_nat (List.length data))
    then nth_error data (Z.to_nat (a - addr))
    else m a.

Definition byte_of_Z (z : Z) : byte :=
  match Byte.of_N (Z.to_N (z mod 256)) with
  | Some b => b
  | None => x00
  end.

(** [struct.pack] of an unsigned little-endian field of [width] bytes. *)
Fixpoint le_encode (width : nat) (z : Z) : bytes :=
  match width with
  | O => []
  | S k => byte_of_Z z :: le_encode k (z / 256)
  end.

Definition cstring (s : string) : bytes :=
  map byte_of_ascii (list_ascii_of_string s) ++ [x00].

(** An operating system whose only interesting answer is the remote
    read. *)
Definition reader_os (rd : trace -> Z -> Z -> Z -> bool * bytes) : OS :=
  {| path_exists := fun _ => true;
     abspath := fun p => p;
     argv := [];
     default_dll_path := "goldsrc_diag_overlay.dll";
     process_iter := [];
     sizeof_void_p := 8;
     get_last_error := 0;
     OpenProcess := fun _ => 0;
     IsWow64Process := fun _ => false;
     VirtualAllocEx := fun _ _ => 0;
     WriteProcessMemory := fun _ _ _ _ => (false, 0);
     ReadProcessMemory := rd;
     CreateToolhelp32Snapshot := fun _ => -1;
     Module32Walk := fun _ => [];
     GetModuleHandleW := 0;
     GetProcAddress := fun _ => 0;
     CreateRemoteThread := fun _ _ _ => 0;
     WaitForSingleObject := fun _ _ => 0;
     GetExitCodeThread := fun _ => 0 |}.

(** A small PE32 image at [base]: DOS header with [e_lfanew = 0x80], PE
    headers, an export directory at RVA 0x200 with the arrays at RVAs
    0x240 (functions), 0x280 (name pointers) and 0x2C0 (ordinals), and
    the name strings from RVA 0x300, 0x100 bytes apart. *)
Fixpoint poke_names (addr : Z) (names : list bytes) (m : memory) : memory :=
  match names with
  | [] => m
  | n :: rest => poke_names (addr + 0x100) rest (poke addr n m)
  end.

Definition name_rvas_of (names : list bytes) : list Z :=
  map (fun i => 0x300 + 0x100 * Z.of_nat i) (seq 0 (List.length names)).

Definition image (base : Z) (num_functions : Z) (func_rvas ordinals : list Z)
    (names : list bytes) : memory :=
  poke base (repeat x00 0x3C ++ le_encode 4 0x80)
  (poke (base + 0x80)
     (le_encode 4 0x4550 ++ repeat x00 20 ++ le_encode 2 0x10B
      ++ repeat x00 94 ++ le_encode 4 0x200)
  (poke (base + 0x200)
     (repeat x00 20 ++ le_encode 4 num_functions
      ++ le_encode 4 (Z.of_nat (List.length names))
      ++ le_encode 4 0x240 ++ le_encode 4 0x280 ++ le_encode 4 0x2C0)
  (poke (base + 0x240) (flat_map (le_encode 4) func_rvas)
  (poke (base + 0x280) (flat_map (le_encode 4) (name_rvas_of names))
  (poke (base + 0x2C0) (flat_map (le_encode 2) ordinals)
  (poke_names (base + 0x300) names
  (blank base 0x1000))))))).

Definition run {R A} (c : M R A) : ctl R A * trace := c [].

(* ================================================================== *)
(** ** Observations on buffers and traces *)

(** The unsigned little-endian field of [width] bytes at [off], where the
    buffer holds it. *)
Definition field (width : nat) (data : bytes) (off : Z) : Z :=
  le_decode (firstn width (skipn (Z.to_nat off) data)).

Definition no_zero (s : bytes) : bool :=
  forallb (fun b => negb (Byte.eqb b x00)) s.

Definition is_read (e : event) : bool :=
  match e with
  | EvReadProcessMemory _ _ _ => true
  | _ => false
  end.

(** A computation that only adds [ReadProcessMemory] events. *)
Definition reads_only {R A} (c : M R A) : Prop :=
  forall tr, exists evs,
    snd (c tr) = tr ++ evs /\ forallb is_read evs = true.

Definition is_close (h : Z) (e : event) : bool :=
  match e with
  | EvCloseHandle h' => h' =? h
  | _ => false
  end.

Definition is_create_thread (e : event) : bool :=
  match e with
  | EvCreateRemoteThread _ _ _ => true
  | _ => false
  end.

(** The events of [find_remote_module_base] and [find_remote_export]. *)
Definition is_remote_resolution (e : event) : bool :=
  match e with
  | EvCreateToolhelp32Snapshot _ => true
  | EvModule32Walk _ => true
  | EvReadProcessMemory _ _ _ => true
  | _ => false
  end.

(** The events of the local lookup. *)
Definition is_local_resolution (e : event) : bool :=
  match e with
  | EvGetModuleHandleW => true
  | EvGetProcAddress _ => true
  | _ => false
  end.

(* ================================================================== *)
(** ** Values held by a memory *)

Definition readable (m : memory) (addr : Z) (n : nat) : bool :=
  match load m addr n with
  | Some _ => true
  | None => false
  end.

(** The unsigned little-endian value of the [width] bytes at [addr]. *)
Definition mem_u (width : nat) (m : memory) (addr : Z) : option Z :=
  option_map le_decode (load m addr width).

(** [n] such values in a row. *)
Fixpoint load_array (width : nat) (m : memory) (addr : Z) (n : nat)
    : option (list Z) :=
  match n with
  | O => Some []
  | S k =>
      match mem_u width m addr, load_array width m (addr + Z.of_nat width) k with
      | Some v, Some r => Some (v :: r)
      | _, _ => None
      end
  end.

(* ================================================================== *)
(** ** Export tables *)

(** The export table of an image as the format defines it: the function
    RVAs, the ordinal of each named entry and the name of each named
    entry (without its terminating zero), in array order. *)
Record export_table := {
  functionTable : list Z;
  ordinalTable : list Z;
  nameTable : list bytes
}.

(** Where the image keeps it. *)
Record pe_layout := {
  lay_e_lfanew : Z;
  lay_wide : bool;
  lay_export_rva : Z;
  lay_func_rvas_rva : Z;
  lay_name_rvas_rva : Z;
  lay_ordinals_rva : Z;
  lay_name_rvas : list Z
}.

(** The string [s] lies NUL-terminated at [addr], and the 128 bytes from
    [addr] are readable. *)
Definition named (m : memory) (addr : Z) (s : bytes) : Prop :=
  no_zero s = true /\
  load m addr (S (List.length s)) = Some (s ++ [x00]) /\
  readable m addr 128 = true.

(** Memory [m] holds at [base] a well-formed image with export table [t],
    every part of it readable. *)
Record well_formed (m : memory) (base : Z) (l : pe_layout) (t : export_table)
    : Prop := {
  wf_dos : readable m base 64 = true;
  wf_e_lfanew : mem_u 4 m (base + 0x3C) = Some (lay_e_lfanew l);
  wf_pe : readable m (base + lay_e_lfanew l) 256 = true;
  wf_signature : mem_u 4 m (base + lay_e_lfanew l + 0) = Some 0x4550;
  wf_magic :
    mem_u 2 m (base + lay_e_lfanew l + 24)
    = Some (if lay_wide l then 0x20B else 0x10B);
  wf_export_rva :
    mem_u 4 m (base + lay_e_lfanew l + (24 + (if lay_wide l then 112 else 96)))
    = Some (lay_export_rva l);
  wf_has_exports : lay_export_rva l <> 0;
  wf_directory : readable m (base + lay_export_rva l) 40 = true;
  wf_num_functions :
    mem_u 4 m (base + lay_export_rva l + 20)
    = Some (Z.of_nat (List.length (functionTable t)));
  wf_num_names :
    mem_u 4 m (base + lay_export_rva l + 24)
    = Some (Z.of_nat (List.length (nameTable t)));
  wf_func_rvas_rva :
    mem_u 4 m (base + lay_export_rva l + 28) = Some (lay_func_rvas_rva l);
  wf_name_rvas_rva :
    mem_u 4 m (base + lay_export_rva l + 32) = Some (lay_name_rvas_rva l);
  wf_ordinals_rva :
    mem_u 4 m (base + lay_export_rva l + 36) = Some (lay_ordinals_rva l);
  wf_functions :
    load_array 4 m (base + lay_func_rvas_rva l) (List.length (functionTable t))
    = Some (functionTable t);
  wf_name_rvas :
    load_array 4 m (base + lay_name_rvas_rva l) (List.length (nameTable t))
    = Some (lay_name_rvas l);
  wf_ordinals :
    load_array 2 m (base + lay_ordinals_rva l) (List.length (nameTable t))
    = Some (ordinalTable t);
  wf_ordinals_in_range :
    Forall (fun o => o < Z.of_nat (List.length (functionTable t))) (ordinalTable t);
  wf_names :
    Forall2 (fun rva s => named m (base + rva) s) (lay_name_rvas l) (nameTable t)
}.

(** Following the spec's words: the first entry in name-array order whose
    name equals the requested one gives the index; that index gives the
    ordinal, the ordinal gives the function RVA, and the answer is the
    image base plus that RVA; no entry with that name gives [None]. *)
Fixpoint first_match (name : bytes) (names : list bytes) : option nat :=
  match names with
  | [] => None
  | s :: rest =>
      if bytes_eqb s name then Some O
      else option_map S (first_match name rest)
  end.

Definition resolve_spec (base : Z) (t : export_table) (name : bytes) : option Z :=
  match first_match name (nameTable t) with
  | Some i =>
      Some (base + nth (Z.to_nat (nth i (ordinalTable t) 0)) (functionTable t) 0)
  | None => None
  end.

(* ================================================================== *)
(** ** Concrete images *)

Definition ascii_bytes (s : string) : bytes :=
  map byte_of_ascii (list_ascii_of_string s).

Fixpoint repeat_char (c : ascii) (n : nat) : string :=
  match n with
  | O => EmptyString
  | S k => String c (repeat_char c k)
  end.

(** The layout [image] gives every module it builds. *)
Definition image_layout (names : list bytes) : pe_layout :=
  {| lay_e_lfanew := 0x80;
     lay_wide := false;
     lay_export_rva := 0x200;
     lay_func_rvas_rva := 0x240;
     lay_name_rvas_rva := 0x280;
     lay_ordinals_rva := 0x2C0;
     lay_name_rvas := name_rvas_of names |}.

(** A module whose export table holds CreateFileA, LoadLibraryA and
    LoadLibraryW. *)
Definition kernel32_names : list bytes :=
  [cstring "CreateFileA"; cstring "LoadLibraryA"; cstring "LoadLibraryW"].

Definition kernel32_image (base : Z) : memory :=
  image base 3 [0x1111; 0x2222; 0x3333] [2; 0; 1] kernel32_names.

Definition kernel32_table : export_table :=
  {| functionTable := [0x1111; 0x2222; 0x3333];
     ordinalTable := [2; 0; 1];
     nameTable := [ascii_bytes "CreateFileA"; ascii_bytes "LoadLibraryA";
                   ascii_bytes "LoadLibraryW"] |}.

(** The same module with a damaged signature. *)
Definition bad_signature_image : memory :=
  poke (0x10000 + 0x80) (le_encode 4 0x4551) (kernel32_image 0x10000).

(** An export whose name is 129 bytes long. *)
Definition long_name : string := repeat_char "A" 129.

Definition long_name_image : memory :=
  image 0x10000 1 [0x1111] [0] [cstring long_name].


(** An export whose name is exactly 128 bytes long. *)
Definition name128 : string := repeat_char "B" 128.

Definition name128_image : memory :=
  image 0x10000 1 [0x1111] [0] [cstring name128].

(** [m] with the [size] bytes from [addr] made unreadable. *)
Definition unmap (addr size : Z) (m : memory) : memory :=
  fun a => if (addr <=? a) && (a <? addr + size) then None else m a.

(** kernel32 with its function-address array unreadable. *)
Definition unreadable_functions_image : memory :=
  unmap (0x10000 + 0x240) 12 (kernel32_image 0x10000).

(** kernel32 whose entry LoadLibraryA carries ordinal 7, with only three
    function addresses in the table. *)
Definition bad_ordinal_image : memory :=
  image 0x10000 3 [0x1111; 0x2222; 0x3333] [2; 7; 1] kernel32_names.

(* ================================================================== *)
(** ** Injection scenarios *)

(** A target with pid 1234 named hl.exe: OpenProcess gives handle 0x50,
    VirtualAllocEx gives 0x200000, the module snapshot has handle 0x60,
    the remote thread has handle 0x70.  The scenario fixes the pointer
    size of the injector, whether the target runs under WoW64, the answer
    of WriteProcessMemory, the target's modules and memory, the local
    address of LoadLibraryA, and how the remote thread ends. *)
Definition scenario (pointer_size : Z) (wow64 : bool) (written : bool * Z)
    (modules : list MODULEENTRY32) (m : memory) (local_load_library : Z)
    (wait_result exit_code : Z) : OS :=
  {| path_exists := fun _ => true;
     abspath := fun p => p;
     argv := ["inject.py"%string; "C:\overlay.dll"%string];
     default_dll_path := "goldsrc_diag_overlay.dll";
     process_iter := [(4, Some "System"%string); (1234, Some "HL.EXE"%string)];
     sizeof_void_p := pointer_size;
     get_last_error := 0;
     OpenProcess := fun _ => 0x50;
     IsWow64Process := fun _ => wow64;
     VirtualAllocEx := fun _ _ => 0x200000;
     WriteProcessMemory := fun _ _ _ _ => written;
     ReadProcessMemory := memory_read m;
     CreateToolhelp32Snapshot := fun _ => 0x60;
     Module32Walk := fun _ => modules;
     GetModuleHandleW := 0x7000;
     GetProcAddress := fun _ => local_load_library;
     CreateRemoteThread := fun _ _ _ => 0x70;
     WaitForSingleObject := fun _ _ => wait_result;
     GetExitCodeThread := fun _ => exit_code |}.

Definition dll : string := "C:\overlay.dll".
Definition dll_bytes : bytes := encode_utf8 dll ++ [x00].

Definition no_memory : memory := fun _ => None.

(** A WoW64 target whose kernel32 lies above 4 GiB. *)
Definition high_kernel32 : OS :=
  scenario 8 true (true, 15)
    [{| szModule := "ntdll.dll"; modBaseAddr := 0x77000000 |};
     {| szModule := "KERNEL32.DLL"; modBaseAddr := 0x100000000 |}]
    (kernel32_image 0x100000000) 0x7100 WAIT_OBJECT_0 0x5000.

Definition same_mode_target : OS :=
  scenario 8 false (true, 15) [] no_memory 0x7100 WAIT_OBJECT_0 0x5000.

(* ================================================================== *)
(** ** Further observations *)

Definition is_read_on (h : Z) (e : event) : bool :=
  match e with
  | EvReadProcessMemory h' _ _ => h' =? h
  | _ => false
  end.

(** A computation that only adds events satisfying [p]. *)
Definition adds_only {R A} (p : event -> bool) (c : M R A) : Prop :=
  forall tr, exists evs,
    snd (c tr) = tr ++ evs /\ forallb p evs = true.

(** A computation whose outcome does not depend on the trace it starts
    from. *)
Definition trace_independent {R A} (c : M R A) : Prop :=
  forall tr1 tr2, fst (c tr1) = fst (c tr2).

(** An operating system whose remote reads do not depend on the calls made
    before: the remote image is not modified between reads. *)
Definition static_reads (os : OS) : Prop :=
  forall tr1 tr2 h addr size,
    ReadProcessMemory os tr1 h addr size = ReadProcessMemory os tr2 h addr size.

(** kernel32 with its export directory unreadable. *)
Definition unreadable_directory_image : memory :=
  unmap (0x10000 + 0x200) 40 (kernel32_image 0x10000).

(** kernel32 re-exporting one name twice, with different ordinals. *)
Definition duplicate_names : list bytes :=
  [cstring "LoadLibraryA"; cstring "CreateFileA"; cstring "LoadLibraryA"].

Definition duplicate_names_table : export_table :=
  {| functionTable := [0x1111; 0x2222; 0x3333];
     ordinalTable := [2; 0; 1];
     nameTable := [ascii_bytes "LoadLibraryA"; ascii_bytes "CreateFileA";
                   ascii_bytes "LoadLibraryA"] |}.

Definition duplicate_names_image : memory :=
  image 0x10000 3 [0x1111; 0x2222; 0x3333] [2; 0; 1] duplicate_names.

(** How many candidate names the search reads: up to and including the
    first match, all of them when nothing matches. *)
Definition candidates_read (name : bytes) (names : list bytes) : nat :=
  match first_match name names with
  | Some i => S i
  | None => List.length names
  end.

(** The six reads before the search, for an image laid out as [l] with
    table [t]. *)
Definition header_reads (h base : Z) (l : pe_layout) (t : export_table)
    : trace :=
  [EvReadProcessMemory h base 64;
   EvReadProcessMemory h (base + lay_e_lfanew l) 256;
   EvReadProcessMemory h (base + lay_export_rva l) 40;
   EvReadProcessMemory h (base + lay_name_rvas_rva l)
     (Z.of_nat (List.length (nameTable t)) * 4);
   EvReadProcessMemory h (base + lay_ordinals_rva l)
     (Z.of_nat (List.length (nameTable t)) * 2);
   EvReadProcessMemory h (base + lay_func_rvas_rva l)
     (Z.of_nat (List.length (functionTable t)) * 4)].

(** The read of the name window at [rva]. *)
Definition name_read (h base rva : Z) : event :=
  EvReadProcessMemory h (base + rva) 128.

(** The handle values [find_remote_module_base] takes for a failed
    snapshot. *)
Definition invalid_snapshot (os : OS) (snap : Z) : bool :=
  (snap =? -1) || (snap =? 2 ^ (8 * sizeof_void_p os) - 1).

(** Two names that are the same once lower-cased. *)
Definition same_name (a b : string) : Prop := lower a = lower b.

(** A target whose module list holds a kernel32 with a NULL base before a
    second entry of that name. *)
Definition null_base_modules : list MODULEENTRY32 :=
  [{| szModule := "hl.exe"; modBaseAddr := 0x400000 |};
   {| szModule := "KERNEL32.DLL"; modBaseAddr := 0 |};
   {| szModule := "kernel32.dll"; modBaseAddr := 0x10000 |}].

Definition module_target : OS :=
  scenario 8 true (true, 15) null_base_modules (kernel32_image 0x10000)
    0x7100 WAIT_OBJECT_0 0x5000.

(** The number of remote threads a trace asks for. *)
Definition thread_count (tr : trace) : nat :=
  List.length (filter is_create_thread tr).

(** A computation that never raises [SystemExit]. *)
Definition never_exits {R A} (c : M R A) : Prop :=
  forall tr e, fst (c tr) = Raise e -> forall code, e <> SystemExit code.


(** The same operating system with another file system, process list or
    command line. *)
Definition with_local (exists_ : string -> bool) (args : list string)
    (procs : list (Z * option string)) (os : OS) : OS :=
  {| path_exists := exists_;
     abspath := abspath os;
     argv := args;
     default_dll_path := default_dll_path os;
     process_iter := procs;
     sizeof_void_p := sizeof_void_p os;
     get_last_error := get_last_error os;
     OpenProcess := OpenProcess os;
     IsWow64Process := IsWow64Process os;
     VirtualAllocEx := VirtualAllocEx os;
     WriteProcessMemory := WriteProcessMemory os;
     ReadProcessMemory := ReadProcessMemory os;
     CreateToolhelp32Snapshot := CreateToolhelp32Snapshot os;
     Module32Walk := Module32Walk os;
     GetModuleHandleW := GetModuleHandleW os;
     GetProcAddress := GetProcAddress os;
     CreateRemoteThread := CreateRemoteThread os;
     WaitForSingleObject := WaitForSingleObject os;
     GetExitCodeThread := GetExitCodeThread os |}.

(** The payload path [main] settles on. *)
Definition chosen_dll_path (os : OS) : string :=
  match argv os with
  | _ :: arg :: _ => arg
  | _ => default_dll_path os
  end.


(** The same operating system with other answers from OpenProcess and
    VirtualAllocEx, and last error 5 (access denied). *)
Definition with_remote (open_ alloc : Z) (os : OS) : OS :=
  {| path_exists := path_exists os;
     abspath := abspath os;
     argv := argv os;
     default_dll_path := default_dll_path os;
     process_iter := process_iter os;
     sizeof_void_p := sizeof_void_p os;
     get_last_error := 5;
     OpenProcess := fun _ => open_;
     IsWow64Process := IsWow64Process os;
     VirtualAllocEx := fun _ _ => alloc;
     WriteProcessMemory := WriteProcessMemory os;
     ReadProcessMemory := ReadProcessMemory os;
     CreateToolhelp32Snapshot := CreateToolhelp32Snapshot os;
     Module32Walk := Module32Walk os;
     GetModuleHandleW := GetModuleHandleW os;
     GetProcAddress := GetProcAddress os;
     CreateRemoteThread := CreateRemoteThread os;
     WaitForSingleObject := WaitForSingleObject os;
     GetExitCodeThread := GetExitCodeThread os |}.

Definition allocation_refused : OS := with_remote 0x50 0 same_mode_target.

Definition no_kernel32 : OS :=
  scenario 8 true (true, 15)
    [{| szModule := "hl.exe"; modBaseAddr := 0x400000 |}]
    no_memory 0x7100 WAIT_OBJECT_0 0x5000.

Definition payload_missing : OS :=
  with_local (fun _ => false) (argv same_mode_target)
    (process_iter same_mode_target) same_mode_target.


(** A WoW64 target with kernel32 loaded at 0x10000. *)
Definition wow64_target : OS :=
  scenario 8 true (true, 15)
    [{| szModule := "hl.exe"; modBaseAddr := 0x400000 |};
     {| szModule := "KERNEL32.DLL"; modBaseAddr := 0x10000 |}]
    (kernel32_image 0x10000) 0x7100 WAIT_OBJECT_0 0x5000.

(** A process that has a name, and not the requested one. *)
Definition other_process (process_name : string) (p : Z * option string)
    : Prop :=
  exists name, snd p = Some name /\ ~ same_name name process_name.

(** [WriteProcessMemory] as Windows documents it: it returns TRUE only
    when the whole range was written, and the count it stores is then the
    size asked for. *)
Definition writes_whole_range (os : OS) : Prop :=
  forall h addr data size,
    fst (WriteProcessMemory os h addr data size) = true ->
    snd (WriteProcessMemory os h addr data size) = size.

(* ================================================================== *)
(** ** Buffers and fields *)

Lemma buffer_length n copied : List.length (buffer n copied) = Z.to_nat n.
Proof.
  unfold buffer.
  rewrite length_firstn, length_app, repeat_length. lia.
Qed.

Lemma unpack_from_field width data off :
  0 <= off ->
  (Z.to_nat off + width <= List.length data)%nat ->
  unpack_from width data off = Some (field width data off).
Proof.
  intros Hoff Hlen. unfold unpack_from, field.
  assert (Hf : List.length (firstn width (skipn (Z.to_nat off) data)) = width)
    by (rewrite length_firstn, length_skipn; lia).
  rewrite Hf, Nat.eqb_refl.
  destruct (0 <=? off) eqn:E; [reflexivity | lia].
Qed.

Lemma unpack_from_buffer width n copied off :
  0 <= off ->
  off + Z.of_nat width <= n ->
  unpack_from width (buffer n copied) off
  = Some (field width (buffer n copied) off).
Proof.
  intros Hoff Hn. apply unpack_from_field; [assumption|].
  rewrite buffer_length. lia.
Qed.

Lemma byte_to_Z_nonneg b : 0 <= byte_to_Z b.
Proof. unfold byte_to_Z. lia. Qed.

Lemma le_decode_nonneg bs : 0 <= le_decode bs.
Proof.
  induction bs as [|b r IH]; cbn [le_decode]; [lia|].
  pose proof (byte_to_Z_nonneg b). lia.
Qed.

Lemma bytes_eqb_eq a b : bytes_eqb a b = true <-> a = b.
Proof.
  revert b. induction a as [|x a IH]; intros [|y b]; simpl;
    try (split; [discriminate | congruence]); [tauto|].
  rewrite andb_true_iff, IH. split.
  - intros [Hxy ->]. apply Byte.byte_dec_bl in Hxy. now subst.
  - intros [= -> ->]. split; [apply Byte.byte_dec_lb|]; reflexivity.
Qed.

Lemma bytes_eqb_length a b : bytes_eqb a b = true -> List.length a = List.length b.
Proof. intros H. apply bytes_eqb_eq in H. now subst. Qed.

Lemma split0_length data : (List.length (split0 data) <= List.length data)%nat.
Proof.
  induction data as [|b r IH]; simpl; [lia|].
  destruct (Byte.eqb b x00); simpl; lia.
Qed.

Lemma split0_no_zero s : no_zero s = true -> split0 s = s.
Proof.
  induction s as [|b r IH]; simpl; [reflexivity|].
  rewrite andb_true_iff. intros [Hb Hr].
  destruct (Byte.eqb b x00); [discriminate|]. now rewrite IH.
Qed.

Lemma split0_terminated s rest :
  no_zero s = true -> split0 (s ++ x00 :: rest) = s.
Proof.
  induction s as [|b r IH]; simpl; [reflexivity|].
  rewrite andb_true_iff. intros [Hb Hr].
  destruct (Byte.eqb b x00); [discriminate|]. now rewrite IH.
Qed.

(* ================================================================== *)
(** ** Stepping through a body *)

Lemma bind_ret {R A B} (a : A) (k : A -> M R B) tr : bind (ret a) k tr = k a tr.
Proof. reflexivity. Qed.

Lemma bind_emit {R B} e (k : unit -> M R B) tr :
  bind (emit e) k tr = k tt (tr ++ [e]).
Proof. reflexivity. Qed.

Lemma bind_read {R B} os h addr size (k : bool * bytes -> M R B) tr :
  bind (read_process_memory os h addr size) k tr
  = k (fst (ReadProcessMemory os tr h addr size),
       buffer size (snd (ReadProcessMemory os tr h addr size)))
      (tr ++ [EvReadProcessMemory h addr size]).
Proof.
  unfold bind, read_process_memory.
  destruct (ReadProcessMemory os tr h addr size); reflexivity.
Qed.

Lemma bind_unpack_I {R B} n copied off (k : Z -> M R B) tr :
  0 <= off -> off + 4 <= n ->
  bind (unpack_from_I (buffer n copied) off) k tr
  = k (field 4 (buffer n copied) off) tr.
Proof.
  intros. unfold unpack_from_I.
  rewrite unpack_from_buffer by (simpl; lia). reflexivity.
Qed.

Lemma bind_unpack_H {R B} n copied off (k : Z -> M R B) tr :
  0 <= off -> off + 2 <= n ->
  bind (unpack_from_H (buffer n copied) off) k tr
  = k (field 2 (buffer n copied) off) tr.
Proof.
  intros. unfold unpack_from_H.
  rewrite unpack_from_buffer by (simpl; lia). reflexivity.
Qed.

Ltac step :=
  first
    [ rewrite bind_ret
    | rewrite bind_emit
    | rewrite bind_read
    | rewrite bind_unpack_I by lia
    | rewrite bind_unpack_H by lia ].

(* ================================================================== *)
(** ** The header checks of [find_remote_export] *)

Section HeaderChecks.

Context {R : Type}.
Variable os : OS.
Variables h_process module_base : Z.
Variable function_name : string.
Variable tr : trace.

(** What the first two reads of a call started at trace [tr] bring. *)
Let read_dos := EvReadProcessMemory h_process module_base 64.
Let dos_header :=
  buffer 64 (snd (ReadProcessMemory os tr h_process module_base 64)).
Let e_lfanew := field 4 dos_header 0x3C.
Let read_pe := EvReadProcessMemory h_process (module_base + e_lfanew) 256.
Let pe_data :=
  buffer 256 (snd (ReadProcessMemory os (tr ++ [read_dos]) h_process
                     (module_base + e_lfanew) 256)).

(** The DOS header read is checked: when it fails the call returns [None]
    after that one read. *)
Lemma find_remote_export_dos_read_fails func_name_bytes :
  encode_ascii function_name = Some func_name_bytes ->
  fst (ReadProcessMemory os tr h_process module_base 64) = false ->
  find_remote_export (R:=R) os h_process module_base function_name tr
  = (Next None, tr ++ [read_dos]).
Proof.
  intros Henc Hok.
  unfold find_remote_export, call, find_remote_export_body.
  rewrite Henc. cbn [or_raise]. step. step. rewrite Hok. reflexivity.
Qed.

(** C5: with a wrong signature, an unrecognised magic or a zero export
    directory RVA, [find_remote_export] returns [None] and the only reads
    it has issued are the DOS header and the PE header: nothing is read
    after the failed check, and the export directory is never read. *)
Theorem find_remote_export_malformed_header func_name_bytes :
  encode_ascii function_name = Some func_name_bytes ->
  fst (ReadProcessMemory os tr h_process module_base 64) = true ->
  fst (ReadProcessMemory os (tr ++ [read_dos]) h_process
         (module_base + e_lfanew) 256) = true ->
  (field 4 pe_data 0 <> 0x4550 \/
   (field 2 pe_data 24 <> 0x10B /\ field 2 pe_data 24 <> 0x20B) \/
   (field 2 pe_data 24 = 0x10B /\ field 4 pe_data (24 + 96) = 0) \/
   (field 2 pe_data 24 = 0x20B /\ field 4 pe_data (24 + 112) = 0)) ->
  find_remote_export (R:=R) os h_process module_base function_name tr
  = (Next None, tr ++ [read_dos; read_pe]).
Proof.
  intros Henc Hok1 Hok2 Hbad.
  unfold find_remote_export, call, find_remote_export_body.
  rewrite Henc. cbn [or_raise]. step. step. rewrite Hok1. cbn [negb].
  step. fold dos_header e_lfanew read_dos.
  step. rewrite Hok2. cbn [negb]. fold pe_data.
  replace ((tr ++ [read_dos]) ++ [EvReadProcessMemory h_process (module_base + e_lfanew) 256])
    with (tr ++ [read_dos; read_pe])
    by (rewrite <- app_assoc; reflexivity).
  unfold pe_data at 1. step. fold pe_data.
  destruct (field 4 pe_data 0 =? 17744) eqn:Hsig; cbn [negb]; [|reflexivity].
  apply Z.eqb_eq in Hsig.
  unfold pe_data at 1. step. fold pe_data.
  destruct (field 2 pe_data 24 =? 267) eqn:H32.
  - apply Z.eqb_eq in H32.
    unfold pe_data at 1. step. fold pe_data.
    destruct (field 4 pe_data (24 + 96) =? 0) eqn:Hrva; [reflexivity|].
    apply Z.eqb_neq in Hrva. exfalso.
    destruct Hbad as [Hb|[[Hb _]|[[_ Hb]|[Hb _]]]]; try contradiction.
    rewrite H32 in Hb. discriminate.
  - apply Z.eqb_neq in H32.
    destruct (field 2 pe_data 24 =? 523) eqn:H64.
    + apply Z.eqb_eq in H64.
      unfold pe_data at 1. step. fold pe_data.
      destruct (field 4 pe_data (24 + 112) =? 0) eqn:Hrva; [reflexivity|].
      apply Z.eqb_neq in Hrva. exfalso.
      destruct Hbad as [Hb|[[_ Hb]|[[Hb _]|[_ Hb]]]]; contradiction.
    + reflexivity.
Qed.

End HeaderChecks.

Lemma find_remote_export_malformed_header_witness :
  find_remote_export (R:=unit) (reader_os (memory_read bad_signature_image))
    7 0x10000 "LoadLibraryA" []
  = (Next None,
     [EvReadProcessMemory 7 0x10000 64; EvReadProcessMemory 7 0x10080 256]).
Proof.
  apply (find_remote_export_malformed_header
           (reader_os (memory_read bad_signature_image)) 7 0x10000
           "LoadLibraryA" [] (map byte_of_ascii (list_ascii_of_string "LoadLibraryA"))).
  - reflexivity.
  - vm_compute. reflexivity.
  - vm_compute. reflexivity.
  - left. vm_compute. discriminate.
Defined.

(* ================================================================== *)
(** ** Reading from a memory *)

Lemma load_length m n : forall addr bs,
  load m addr n = Some bs -> List.length bs = n.
Proof.
  induction n as [|k IH]; intros addr bs; simpl.
  - intros [= <-]. reflexivity.
  - destruct (m addr); [|discriminate].
    destruct (load m (addr + 1) k) eqn:E; [|discriminate].
    intros [= <-]. simpl. f_equal. eapply IH, E.
Qed.

Lemma load_app m n1 n2 : forall addr,
  load m addr (n1 + n2)
  = match load m addr n1, load m (addr + Z.of_nat n1) n2 with
    | Some x, Some y => Some (x ++ y)
    | _, _ => None
    end.
Proof.
  induction n1 as [|k IH]; intros addr.
  - cbn [load Nat.add]. replace (addr + Z.of_nat 0) with addr by lia.
    destruct (load m addr n2); reflexivity.
  - cbn [load Nat.add]. rewrite IH.
    replace (addr + 1 + Z.of_nat k) with (addr + Z.of_nat (S k)) by lia.
    destruct (m addr); [|reflexivity].
    destruct (load m (addr + 1) k); [|reflexivity].
    destruct (load m (addr + Z.of_nat (S k)) n2); reflexivity.
Qed.

(** A part of a readable range is readable and holds the same bytes. *)
Lemma load_sub m addr n buf off w :
  load m addr n = Some buf ->
  (off + w <= n)%nat ->
  load m (addr + Z.of_nat off) w = Some (firstn w (skipn off buf)).
Proof.
  intros Hload Hle.
  replace n with (off + (w + (n - off - w)))%nat in Hload by lia.
  rewrite load_app in Hload.
  destruct (load m addr off) as [a|] eqn:Ha; [|discriminate].
  rewrite load_app in Hload.
  destruct (load m (addr + Z.of_nat off) w) as [b|] eqn:Hb; [|discriminate].
  destruct (load m (addr + Z.of_nat off + Z.of_nat w) (n - off - w)) as [c|];
    [|discriminate].
  injection Hload as <-.
  apply load_length in Ha, Hb.
  rewrite skipn_app, Ha, Nat.sub_diag, (skipn_all2 a) by lia.
  cbn [skipn app]. rewrite firstn_app, Hb, Nat.sub_diag, firstn_all2 by lia.
  cbn [firstn]. now rewrite app_nil_r.
Qed.

Lemma load_prefix m addr n buf w :
  load m addr n = Some buf -> (w <= n)%nat ->
  load m addr w = Some (firstn w buf).
Proof.
  intros Hload Hle.
  pose proof (load_sub m addr n buf 0 w Hload) as H.
  cbn [Z.of_nat skipn] in H. replace (addr + 0) with addr in H by lia.
  apply H. lia.
Qed.

Lemma buffer_of_load m addr size bs :
  load m addr (Z.to_nat size) = Some bs -> buffer size bs = bs.
Proof.
  intros H. apply load_length in H. unfold buffer.
  rewrite firstn_app, H, Nat.sub_diag, firstn_all2 by lia.
  cbn [firstn]. now rewrite app_nil_r.
Qed.

Lemma memory_read_readable m tr h addr size bs :
  load m addr (Z.to_nat size) = Some bs ->
  memory_read m tr h addr size = (true, bs).
Proof. intros H. unfold memory_read. now rewrite H. Qed.

Lemma readable_load m addr n :
  readable m addr n = true -> exists bs, load m addr n = Some bs.
Proof.
  unfold readable. destruct (load m addr n) as [bs|]; [eauto | discriminate].
Qed.

(** A field of a buffer read from memory is the value memory holds at
    that place. *)
Lemma field_of_load m addr n buf off w v :
  load m addr n = Some buf ->
  mem_u w m (addr + Z.of_nat off) = Some v ->
  (off + w <= n)%nat ->
  field w buf (Z.of_nat off) = v.
Proof.
  intros Hload Hv Hle. unfold mem_u in Hv.
  rewrite (load_sub m addr n buf off w Hload Hle) in Hv.
  cbn [option_map] in Hv. injection Hv as <-.
  unfold field. now rewrite Nat2Z.id.
Qed.

(** An array read in bulk: the whole range is readable and the buffer's
    fields are the elements. *)
Lemma load_array_bulk w m n : forall addr vals,
  load_array w m addr n = Some vals ->
  List.length vals = n /\
  exists buf, load m addr (n * w) = Some buf /\
    forall i, (i < n)%nat -> field w buf (Z.of_nat (i * w)) = nth i vals 0.
Proof.
  induction n as [|k IH]; intros addr vals; cbn [load_array].
  - intros [= <-]. split; [reflexivity|]. exists []. split; [reflexivity|]. lia.
  - unfold mem_u at 1.
    destruct (load m addr w) as [hd|] eqn:Hhd; [|discriminate].
    cbn [option_map].
    destruct (load_array w m (addr + Z.of_nat w) k) as [r|] eqn:Hr; [|discriminate].
    intros [= <-]. destruct (IH _ _ Hr) as (Hlen & buf & Hbuf & Hfield).
    split; [simpl; lia|].
    exists (hd ++ buf). split.
    + cbn [Nat.mul]. rewrite load_app, Hhd, Hbuf. reflexivity.
    + intros i Hi. pose proof (load_length _ _ _ _ Hhd) as Hw.
      unfold field. rewrite Nat2Z.id. destruct i as [|i].
      * cbn [Nat.mul skipn nth]. rewrite firstn_app, Hw, Nat.sub_diag.
        cbn [firstn]. rewrite app_nil_r, firstn_all2 by lia. reflexivity.
      * cbn [Nat.mul nth]. rewrite skipn_app, skipn_all2 by lia.
        cbn [app]. replace (w + i * w - List.length hd)%nat with (i * w)%nat by lia.
        specialize (Hfield i ltac:(lia)). unfold field in Hfield.
        now rewrite Nat2Z.id in Hfield.
Qed.

Lemma unpack_of_load m addr n buf w off v :
  load m addr n = Some buf ->
  mem_u w m (addr + off) = Some v ->
  0 <= off -> off + Z.of_nat w <= Z.of_nat n ->
  unpack_from w buf off = Some v.
Proof.
  intros Hload Hv Hoff Hle.
  pose proof (load_length _ _ _ _ Hload) as Hlen.
  rewrite unpack_from_field by lia. f_equal.
  rewrite <- (Z2Nat.id off) by assumption.
  eapply field_of_load; [eassumption | | lia].
  now rewrite Z2Nat.id by assumption.
Qed.

Lemma unpack_of_array w buf n vals i :
  List.length buf = (n * w)%nat ->
  (forall i, (i < n)%nat -> field w buf (Z.of_nat (i * w)) = nth i vals 0) ->
  (i < n)%nat ->
  unpack_from w buf (Z.of_nat i * Z.of_nat w) = Some (nth i vals 0).
Proof.
  intros Hlen Hfield Hi.
  rewrite unpack_from_field by nia.
  rewrite <- Nat2Z.inj_mul. now rewrite Hfield.
Qed.

Lemma bind_read_memory {R B} os m h addr size bs
    (k : bool * bytes -> M R B) tr :
  ReadProcessMemory os = memory_read m ->
  load m addr (Z.to_nat size) = Some bs ->
  bind (read_process_memory os h addr size) k tr
  = k (true, bs) (tr ++ [EvReadProcessMemory h addr size]).
Proof.
  intros Hos Hload. rewrite bind_read, Hos.
  rewrite (memory_read_readable _ _ _ _ _ _ Hload). cbn [fst snd].
  now rewrite (buffer_of_load _ _ _ _ Hload).
Qed.

(** The 128-byte window over a NUL-terminated string no longer than the
    window shows the string. *)
Lemma window_of_cstring m addr s win :
  no_zero s = true ->
  load m addr (S (List.length s)) = Some (s ++ [x00]) ->
  load m addr 128 = Some win ->
  (List.length s <= 128)%nat ->
  split0 win = s.
Proof.
  intros Hnz Hs Hwin Hle.
  destruct (Nat.eq_dec (List.length s) 128) as [Hfull | Hless].
  { pose proof (load_prefix _ _ _ _ 128 Hs ltac:(lia)) as Hp.
    rewrite firstn_app, Hfull, Nat.sub_diag, firstn_all2 in Hp by lia.
    cbn [firstn] in Hp. rewrite app_nil_r in Hp.
    assert (E : win = s) by congruence.
    rewrite E. apply split0_no_zero. exact Hnz. }
  assert (Hlen : (List.length s < 128)%nat) by lia.
  pose proof (load_prefix _ _ _ _ (S (List.length s)) Hwin ltac:(lia)) as Hp.
  assert (E : s ++ [x00] = firstn (S (List.length s)) win) by congruence.
  rewrite <- (firstn_skipn (S (List.length s)) win), <- E, <- app_assoc.
  cbn [app]. now apply split0_terminated.
Qed.

(* ================================================================== *)
(** ** The first match *)

Lemma first_match_some name names i :
  first_match name names = Some i ->
  nth_error names i = Some name /\
  forall j, (j < i)%nat -> nth_error names j <> Some name.
Proof.
  revert i. induction names as [|s rest IH]; intros i; cbn [first_match];
    [discriminate|].
  destruct (bytes_eqb s name) eqn:E.
  - intros [= <-]. apply bytes_eqb_eq in E. subst. split; [reflexivity|]. lia.
  - destruct (first_match name rest) as [i'|]; [|discriminate].
    intros [= <-]. destruct (IH i' eq_refl) as [Hi Hj]. split; [exact Hi|].
    intros [|j] Hlt; cbn [nth_error].
    + intros [= ->]. rewrite (proj2 (bytes_eqb_eq name name) eq_refl) in E.
      discriminate.
    + apply Hj. lia.
Qed.

Lemma first_match_none name names :
  first_match name names = None -> ~ In name names.
Proof.
  induction names as [|s rest IH]; cbn [first_match]; [tauto|].
  destruct (bytes_eqb s name) eqn:E; [discriminate|].
  destruct (first_match name rest); [discriminate|].
  intros _ [->|Hin]; [|now apply IH].
  rewrite (proj2 (bytes_eqb_eq name name) eq_refl) in E. discriminate.
Qed.

(* ================================================================== *)
(** ** The name search over a well-formed table *)

Section Search.

Variable os : OS.
Variable m : memory.
Variables h_process module_base : Z.
Variables func_name_bytes name_rvas_data ordinals_data func_rvas_data : bytes.
Variables name_rvas ordinals funcs : list Z.

Hypothesis Hos : ReadProcessMemory os = memory_read m.
Hypothesis Hname_rvas : forall i, (i < List.length name_rvas)%nat ->
  unpack_from 4 name_rvas_data (Z.of_nat i * 4) = Some (nth i name_rvas 0).
Hypothesis Hordinals : forall i, (i < List.length ordinals)%nat ->
  unpack_from 2 ordinals_data (Z.of_nat i * 2) = Some (nth i ordinals 0).
Hypothesis Hfuncs : forall j, (j < List.length funcs)%nat ->
  unpack_from 4 func_rvas_data (Z.of_nat j * 4) = Some (nth j funcs 0).
Hypothesis Hrange : forall i, (i < List.length ordinals)%nat ->
  0 <= nth i ordinals 0 < Z.of_nat (List.length funcs).

Lemma search_names_from : forall names k tr,
  List.length name_rvas = (k + List.length names)%nat ->
  List.length ordinals = (k + List.length names)%nat ->
  (forall i, (i < List.length names)%nat ->
     exists win,
       load m (module_base + nth (k + i) name_rvas 0) 128 = Some win /\
       split0 win = nth i names []) ->
  fst (search_names os h_process module_base func_name_bytes
         name_rvas_data ordinals_data func_rvas_data
         (map Z.of_nat (seq k (List.length names))) tr)
  = match first_match func_name_bytes names with
    | Some i =>
        Return (Some (module_base
                      + nth (Z.to_nat (nth (k + i) ordinals 0)) funcs 0))
    | None => Next tt
    end.
Proof.
  induction names as [|s rest IH]; intros k tr Hn Ho Hwin; [reflexivity|].
  cbn [List.length seq map search_names first_match].
  cbn [List.length] in Hn, Ho.
  unfold unpack_from_I at 1. rewrite Hname_rvas by lia. cbn [or_raise]. step.
  destruct (Hwin 0%nat ltac:(cbn [List.length]; lia)) as (win & Hload & Hsplit).
  rewrite Nat.add_0_r in Hload. cbn [nth] in Hsplit.
  change 128%nat with (Z.to_nat 128) in Hload.
  rewrite (bind_read_memory os m _ _ 128 win _ _ Hos Hload), Hsplit.
  destruct (bytes_eqb s func_name_bytes) eqn:E.
  - unfold unpack_from_H. rewrite Hordinals by lia. cbn [or_raise]. step.
    destruct (Hrange k ltac:(lia)) as [Hlo Hhi].
    unfold unpack_from_I.
    rewrite <- (Z2Nat.id (nth k ordinals 0)) at 1 by assumption.
    rewrite Hfuncs by lia. cbn [or_raise]. step.
    rewrite Nat.add_0_r. reflexivity.
  - assert (Hrest : forall i, (i < List.length rest)%nat ->
       exists win',
         load m (module_base + nth (S k + i) name_rvas 0) 128 = Some win' /\
         split0 win' = nth i rest []).
    { intros i Hi.
      destruct (Hwin (S i) ltac:(cbn [List.length]; lia))
        as (win' & Hload' & Hsplit').
      exists win'. cbn [nth] in Hsplit'.
      rewrite Nat.add_succ_r in Hload'.
      change (S k + i)%nat with (S (k + i)).
      split; [exact Hload' | exact Hsplit']. }
    rewrite (IH (S k) _ ltac:(lia) ltac:(lia) Hrest).
    destruct (first_match func_name_bytes rest) as [i|]; cbn [option_map];
      [|reflexivity].
    now rewrite Nat.add_succ_r.
Qed.

End Search.

Lemma Forall2_nth_both {A B} (P : A -> B -> Prop) da db : forall l1 l2,
  Forall2 P l1 l2 ->
  forall i, (i < List.length l2)%nat -> P (nth i l1 da) (nth i l2 db).
Proof.
  induction 1 as [|a b l1 l2 Hab _ IH]; intros i Hi; cbn [List.length] in Hi;
    [lia|].
  destruct i as [|i]; cbn [nth]; [exact Hab|]. apply IH. lia.
Qed.

(* ================================================================== *)
(** ** [find_remote_export] on a well-formed image *)


(* ================================================================== *)
(** ** Resolution on concrete images *)

Ltac solve_named :=
  split; [|split]; vm_compute; reflexivity.

Ltac solve_well_formed :=
  constructor;
  lazymatch goal with
  | |- Forall2 _ _ _ =>
      repeat (apply Forall2_cons; [solve_named|]); apply Forall2_nil
  | |- Forall _ _ =>
      repeat (apply Forall_cons; [vm_compute; reflexivity|]); apply Forall_nil
  | |- _ <> _ => vm_compute; discriminate
  | |- _ = _ => vm_compute; reflexivity
  end.

Lemma kernel32_image_well_formed :
  well_formed (kernel32_image 0x10000) 0x10000
    (image_layout kernel32_names) kernel32_table.
Proof. solve_well_formed. Qed.

Ltac solve_short :=
  repeat (apply Forall_cons;
          [first [apply Nat.ltb_lt | apply Nat.leb_le]; vm_compute; reflexivity|]);
  apply Forall_nil.

Lemma shorter_names_fit names :
  Forall (fun s : bytes => (List.length s < 128)%nat) names ->
  Forall (fun s : bytes => (List.length s <= 128)%nat) names.
Proof. apply Forall_impl. intros s H. lia. Qed.



(* ================================================================== *)
(** ** The 128-byte name window *)

Lemma range_bounds n i : In i (range n) -> 0 <= i < n.
Proof.
  unfold range. rewrite in_map_iff. intros (k & <- & Hk).
  apply in_seq in Hk. lia.
Qed.

Lemma window_name_length copied :
  (List.length (split0 (buffer 128 copied)) <= 128)%nat.
Proof.
  pose proof (split0_length (buffer 128 copied)) as H.
  rewrite buffer_length in H. exact H.
Qed.

(** A requested name longer than the window matches no candidate. *)
Lemma search_names_long_name os h_process module_base func_name_bytes
    num_names copied ordinals_data func_rvas_data :
  (128 < List.length func_name_bytes)%nat ->
  forall idx tr,
    (forall i, In i idx -> 0 <= i < num_names) ->
    exists tr',
      search_names os h_process module_base func_name_bytes
        (buffer (num_names * 4) copied) ordinals_data func_rvas_data idx tr
      = (Next tt, tr').
Proof.
  intros Hlong. induction idx as [|i rest IH]; intros tr Hidx.
  - exists tr. reflexivity.
  - cbn [search_names].
    destruct (Hidx i (or_introl eq_refl)) as [Hlo Hhi].
    rewrite bind_unpack_I by lia. step.
    match goal with
    | |- context [bytes_eqb ?a ?b] => destruct (bytes_eqb a b) eqn:E
    end.
    + apply bytes_eqb_length in E.
      match type of E with
      | List.length (split0 (buffer 128 ?c)) = _ =>
          pose proof (window_name_length c)
      end.
      lia.
    + apply IH. intros j Hj. apply Hidx. now right.
Qed.

(** A candidate whose window holds no zero byte is passed over for every
    requested name shorter than the window. *)
Lemma search_names_unterminated os h_process module_base func_name_bytes
    name_rvas_data ordinals_data func_rvas_data i rest name_rva tr :
  unpack_from 4 name_rvas_data (i * 4) = Some name_rva ->
  no_zero (buffer 128 (snd (ReadProcessMemory os tr h_process
                              (module_base + name_rva) 128))) = true ->
  (List.length func_name_bytes < 128)%nat ->
  search_names os h_process module_base func_name_bytes
    name_rvas_data ordinals_data func_rvas_data (i :: rest) tr
  = search_names os h_process module_base func_name_bytes
      name_rvas_data ordinals_data func_rvas_data rest
      (tr ++ [EvReadProcessMemory h_process (module_base + name_rva) 128]).
Proof.
  intros Hrva Hnz Hshort. cbn [search_names].
  unfold unpack_from_I at 1. rewrite Hrva. cbn [or_raise]. step. step.
  rewrite (split0_no_zero _ Hnz).
  match goal with
  | |- context [bytes_eqb ?a ?b] => destruct (bytes_eqb a b) eqn:E
  end; [|reflexivity].
  apply bytes_eqb_length in E. rewrite buffer_length in E.
  change (Z.to_nat 128) with 128%nat in E. lia.
Qed.

Lemma find_remote_export_long_name {R} os h_process module_base
    function_name func_name_bytes tr :
  encode_ascii function_name = Some func_name_bytes ->
  (128 < List.length func_name_bytes)%nat ->
  fst (find_remote_export (R:=R) os h_process module_base function_name tr)
  = Next None.
Proof.
  intros Henc Hlong.
  unfold find_remote_export, call, find_remote_export_body.
  rewrite Henc. cbn [or_raise]. step. step.
  destruct (fst (ReadProcessMemory os tr h_process module_base 64));
    cbn [negb]; [|reflexivity].
  step. step.
  match goal with
  | |- context [negb (fst ?r)] => destruct (fst r)
  end; cbn [negb]; [|reflexivity].
  step.
  match goal with
  | |- context [negb (?a =? 17744)] => destruct (a =? 17744)
  end; cbn [negb]; [|reflexivity].
  step.
  match goal with
  | |- context [if ?a =? 267 then _ else _] =>
      destruct (a =? 267); [|destruct (a =? 523); [|reflexivity]]
  end.
  all: step;
    match goal with
    | |- context [if ?a =? 0 then _ else _] =>
        destruct (a =? 0); [reflexivity|]
    end;
    step;
    match goal with
    | |- context [negb (fst ?r)] => destruct (fst r)
    end; cbn [negb]; [|reflexivity];
    do 5 step; do 3 step; unfold bind at 1;
    match goal with
    | |- context [search_names ?o ?h ?b ?f (buffer (?n * 4) ?c) ?a2 ?a3 (range ?n) ?t0] =>
        destruct (search_names_long_name o h b f n c a2 a3 Hlong (range n) t0
                    (range_bounds n)) as (tr' & ->)
    end;
    reflexivity.
Qed.

Lemma length_list_ascii_of_string s :
  List.length (list_ascii_of_string s) = String.length s.
Proof.
  induction s as [|c s IH]; [reflexivity|].
  cbn [list_ascii_of_string List.length String.length]. now rewrite IH.
Qed.

Lemma encode_ascii_length s b :
  encode_ascii s = Some b -> List.length b = String.length s.
Proof.
  unfold encode_ascii.
  destruct (forallb is_ascii (list_ascii_of_string s)); [|discriminate].
  intros H. injection H as <-.
  rewrite length_map. apply length_list_ascii_of_string.
Qed.

Lemma find_remote_export_not_ascii {R} os h_process module_base
    function_name tr :
  encode_ascii function_name = None ->
  fst (find_remote_export (R:=R) os h_process module_base function_name tr)
  = Raise UnicodeEncodeError.
Proof.
  intros Henc. unfold find_remote_export, call, find_remote_export_body.
  rewrite Henc. reflexivity.
Qed.

(** C10, amended: a requested name of more than 128 characters is never
    resolved: whatever the export table holds, [find_remote_export] returns
    no address for it.  A candidate whose 128-byte window holds no zero
    byte is passed over for every requested name shorter than 128 bytes.
    A requested name of exactly 128 bytes is not covered: it can match. *)
Theorem find_remote_export_name_window {R} os h_process module_base :
  (forall function_name tr,
     (128 < String.length function_name)%nat ->
     forall addr,
       fst (find_remote_export (R:=R) os h_process module_base
              function_name tr)
       <> Next (Some addr))
  /\
  (forall func_name_bytes,
     (List.length func_name_bytes < 128)%nat ->
     forall name_rvas_data ordinals_data func_rvas_data i rest name_rva tr0,
       unpack_from 4 name_rvas_data (i * 4) = Some name_rva ->
       no_zero (buffer 128 (snd (ReadProcessMemory os tr0 h_process
                                   (module_base + name_rva) 128))) = true ->
       search_names os h_process module_base func_name_bytes
         name_rvas_data ordinals_data func_rvas_data (i :: rest) tr0
       = search_names os h_process module_base func_name_bytes
           name_rvas_data ordinals_data func_rvas_data rest
           (tr0 ++ [EvReadProcessMemory h_process (module_base + name_rva) 128])).
Proof.
  split.
  - intros function_name tr Hlong addr.
    destruct (encode_ascii function_name) as [func_name_bytes|] eqn:Henc.
    + rewrite (find_remote_export_long_name os h_process module_base
                 function_name func_name_bytes tr Henc).
      * discriminate.
      * rewrite (encode_ascii_length _ _ Henc). exact Hlong.
    + rewrite (find_remote_export_not_ascii os h_process module_base
                 function_name tr Henc).
      discriminate.
  - intros func_name_bytes Hshort nd od fd i rest name_rva tr0 Hrva Hnz.
    now apply search_names_unterminated.
Qed.

Lemma find_remote_export_name_window_witness :
  fst (find_remote_export (R:=unit) (reader_os (memory_read long_name_image))
         7 0x10000 long_name [])
  <> Next (Some (0x10000 + 0x1111))
  /\
  search_names (reader_os (memory_read long_name_image)) 7 0x10000
    (ascii_bytes "LoadLibraryA") (le_encode 4 0x300) (le_encode 2 0)
    (le_encode 4 0x1111) [0] []
  = search_names (reader_os (memory_read long_name_image)) 7 0x10000
      (ascii_bytes "LoadLibraryA") (le_encode 4 0x300) (le_encode 2 0)
      (le_encode 4 0x1111) [] [EvReadProcessMemory 7 (0x10000 + 0x300) 128].
Proof.
  split.
  - apply (proj1 (find_remote_export_name_window
                    (reader_os (memory_read long_name_image)) 7 0x10000)).
    apply Nat.ltb_lt. vm_compute. reflexivity.
  - refine (proj2 (find_remote_export_name_window (R:=unit)
                     (reader_os (memory_read long_name_image)) 7 0x10000)
              (ascii_bytes "LoadLibraryA") _
              (le_encode 4 0x300) (le_encode 2 0) (le_encode 4 0x1111)
              0 [] 0x300 [] _ _).
    + apply Nat.ltb_lt. vm_compute. reflexivity.
    + vm_compute. reflexivity.
    + vm_compute. reflexivity.
Defined.

(** C10 as stated fails at 128 bytes: the window holds the whole name and
    no zero byte, the comparison succeeds and the address is returned. *)
Lemma name_of_128_bytes_resolved :
  encode_ascii name128 = Some (ascii_bytes name128) /\
  List.length (ascii_bytes name128) = 128%nat /\
  fst (find_remote_export (R:=unit) (reader_os (memory_read name128_image))
         7 0x10000 name128 [])
  = Next (Some (0x10000 + 0x1111)).
Proof. repeat split; vm_compute; reflexivity. Qed.

(* ================================================================== *)
(** ** What [find_remote_export] adds to the trace *)

Lemma reads_only_ret {R A} (a : A) : reads_only (R:=R) (ret a).
Proof. intros tr. exists []. now rewrite app_nil_r. Qed.

Lemma reads_only_return {R A} (r : R) : reads_only (A:=A) (return_ r).
Proof. intros tr. exists []. now rewrite app_nil_r. Qed.

Lemma reads_only_or_raise {R A} e (o : option A) :
  reads_only (R:=R) (or_raise e o).
Proof. intros tr. exists []. destruct o; now rewrite app_nil_r. Qed.

Lemma reads_only_read {R} os h addr size :
  reads_only (R:=R) (read_process_memory os h addr size).
Proof.
  intros tr. exists [EvReadProcessMemory h addr size].
  unfold read_process_memory.
  destruct (ReadProcessMemory os tr h addr size). split; reflexivity.
Qed.

Lemma reads_only_bind {R A B} (c : M R A) (k : A -> M R B) :
  reads_only c -> (forall a, reads_only (k a)) -> reads_only (bind c k).
Proof.
  intros Hc Hk tr. destruct (Hc tr) as (e1 & H1 & F1). unfold bind.
  destruct (c tr) as [[a|r|e] tr1]; cbn [snd] in *; subst tr1.
  - destruct (Hk a (tr ++ e1)) as (e2 & H2 & F2).
    exists (e1 ++ e2). rewrite H2, app_assoc, forallb_app, F1, F2. now split.
  - now exists e1.
  - now exists e1.
Qed.

Lemma reads_only_call {R R'} (body : M R R) :
  reads_only body -> reads_only (R:=R') (call body).
Proof.
  intros Hb tr. destruct (Hb tr) as (evs & H & F). exists evs.
  unfold call. destruct (body tr) as [[a|r|e] tr1]; now split.
Qed.

Lemma reads_only_search os h_process module_base func_name_bytes
    name_rvas_data ordinals_data func_rvas_data idx :
  reads_only (search_names os h_process module_base func_name_bytes
                name_rvas_data ordinals_data func_rvas_data idx).
Proof.
  induction idx as [|i rest IH]; cbn [search_names].
  - apply reads_only_ret.
  - apply reads_only_bind; [apply reads_only_or_raise|]. intros name_rva.
    apply reads_only_bind; [apply reads_only_read|]. intros [ok name_buf].
    destruct (bytes_eqb (split0 name_buf) func_name_bytes); [|exact IH].
    apply reads_only_bind; [apply reads_only_or_raise|]. intros ordinal.
    apply reads_only_bind; [apply reads_only_or_raise|]. intros func_rva.
    apply reads_only_return.
Qed.

Ltac reads_only_step :=
  first
    [ apply reads_only_ret
    | apply reads_only_return
    | apply reads_only_or_raise
    | apply reads_only_read
    | apply reads_only_search
    | apply reads_only_bind; [|intros ?]
    | match goal with
      | |- reads_only (match ?x with (_, _) => _ end) => destruct x
      | |- reads_only (if ?c then _ else _) => destruct c
      end ].

Lemma reads_only_find_remote_export {R} os h_process module_base function_name :
  reads_only (find_remote_export (R:=R) os h_process module_base function_name).
Proof.
  apply reads_only_call. unfold find_remote_export_body.
  unfold unpack_from_I, unpack_from_H.
  repeat reads_only_step.
Qed.

(* ================================================================== *)
(** ** Reads that fail, tables that lie *)

(** C1 fails on the code: the bulk read of the function-address array
    fails, its BOOL is not looked at, the zero-filled buffer is decoded
    and the call returns the module base + 0 instead of [None]. *)
Theorem find_remote_export_ignores_failed_array_read :
  ReadProcessMemory (reader_os (memory_read unreadable_functions_image))
    [] 7 (0x10000 + 0x240) (3 * 4) = (false, [])
  /\
  run (find_remote_export (R:=unit)
         (reader_os (memory_read unreadable_functions_image))
         7 0x10000 "LoadLibraryA")
  = (Next (Some 0x10000),
     [EvReadProcessMemory 7 0x10000 64;
      EvReadProcessMemory 7 (0x10000 + 0x80) 256;
      EvReadProcessMemory 7 (0x10000 + 0x200) 40;
      EvReadProcessMemory 7 (0x10000 + 0x280) (3 * 4);
      EvReadProcessMemory 7 (0x10000 + 0x2C0) (3 * 2);
      EvReadProcessMemory 7 (0x10000 + 0x240) (3 * 4);
      EvReadProcessMemory 7 (0x10000 + 0x300) 128;
      EvReadProcessMemory 7 (0x10000 + 0x400) 128]).
Proof. split; vm_compute; reflexivity. Qed.

(** C6 fails on the code: the ordinal fetched for the matching name indexes
    past the function-address buffer and [struct.unpack_from] raises. *)
Theorem find_remote_export_raises_on_bad_ordinal :
  run (find_remote_export (R:=unit)
         (reader_os (memory_read bad_ordinal_image)) 7 0x10000 "LoadLibraryA")
  = (Raise struct_error,
     [EvReadProcessMemory 7 0x10000 64;
      EvReadProcessMemory 7 (0x10000 + 0x80) 256;
      EvReadProcessMemory 7 (0x10000 + 0x200) 40;
      EvReadProcessMemory 7 (0x10000 + 0x280) (3 * 4);
      EvReadProcessMemory 7 (0x10000 + 0x2C0) (3 * 2);
      EvReadProcessMemory 7 (0x10000 + 0x240) (3 * 4);
      EvReadProcessMemory 7 (0x10000 + 0x300) 128;
      EvReadProcessMemory 7 (0x10000 + 0x400) 128]).
Proof. vm_compute. reflexivity. Qed.

(* ================================================================== *)
(** ** Handles and exit status on concrete runs *)

(** C3 fails on the code: the remote thread is created (handle 0x70), it
    ends with exit code 0, and [inject_dll] returns [False] from inside
    the [if] without closing the thread handle; only the process handle
    (0x50) is closed, by the [finally]. *)
Theorem inject_dll_leaks_thread_handle :
  let os := scenario 8 false (true, 15) [] no_memory 0x7100 WAIT_OBJECT_0 0 in
  run (inject_dll (R:=unit) os 1234 dll)
  = (Next false,
     [EvPrint (MsgOpening 1234); EvOpenProcess 1234; EvIsWow64Process 0x50;
      EvPrint (MsgInjector true); EvPrint (MsgTarget false);
      EvVirtualAllocEx 0x50 15; EvPrint (MsgAllocated 15 0x200000);
      EvWriteProcessMemory 0x50 0x200000 dll_bytes 15; EvPrint (MsgWrote 15);
      EvGetModuleHandleW; EvGetProcAddress 0x7000;
      EvPrint (MsgLoadLibraryAt 0x7100);
      EvCreateRemoteThread 0x50 0x7100 0x200000;
      EvPrint (MsgThreadCreated 0x70); EvPrint MsgWaiting;
      EvWaitForSingleObject 0x70 10000; EvGetExitCodeThread 0x70;
      EvPrint WarnLoadLibraryNull; EvCloseHandle 0x50])
  /\ CreateRemoteThread os 0x50 0x7100 0x200000 = 0x70
  /\ existsb (is_close 0x70) (snd (run (inject_dll (R:=unit) os 1234 dll))) = false
  /\ existsb (is_close 0x50) (snd (run (inject_dll (R:=unit) os 1234 dll))) = true.
Proof. repeat split; vm_compute; reflexivity. Qed.

(** C4 fails on the code: WaitForSingleObject answers WAIT_TIMEOUT (258),
    [inject_dll] prints the warning, closes both handles and returns
    [True]; [main] reports success and the exit status is 0. *)
Theorem main_exits_0_on_timeout :
  let os := scenario 8 false (true, 15) [] no_memory 0x7100 258 0 in
  run (inject_dll (R:=unit) os 1234 dll)
  = (Next true,
     [EvPrint (MsgOpening 1234); EvOpenProcess 1234; EvIsWow64Process 0x50;
      EvPrint (MsgInjector true); EvPrint (MsgTarget false);
      EvVirtualAllocEx 0x50 15; EvPrint (MsgAllocated 15 0x200000);
      EvWriteProcessMemory 0x50 0x200000 dll_bytes 15; EvPrint (MsgWrote 15);
      EvGetModuleHandleW; EvGetProcAddress 0x7000;
      EvPrint (MsgLoadLibraryAt 0x7100);
      EvCreateRemoteThread 0x50 0x7100 0x200000;
      EvPrint (MsgThreadCreated 0x70); EvPrint MsgWaiting;
      EvWaitForSingleObject 0x70 10000; EvPrint (WarnWaitTimedOut 258);
      EvCloseHandle 0x70; EvCloseHandle 0x50])
  /\ exit_status (fst (run (main os))) = 0
  /\ In (EvPrint (WarnWaitTimedOut 258)) (snd (run (main os)))
  /\ In (EvPrint MsgInjectionSuccessful) (snd (run (main os))).
Proof.
  repeat split; try (vm_compute; reflexivity).
  - vm_compute. repeat (first [left; reflexivity | right]).
  - vm_compute. repeat (first [left; reflexivity | right]).
Qed.

Lemma in_reads_only evs e :
  forallb is_read evs = true -> In e evs -> is_read e = true.
Proof. intros H Hin. rewrite forallb_forall in H. now apply H. Qed.

Lemma reads_only_no_thread evs :
  forallb is_read evs = true -> existsb is_create_thread evs = false.
Proof.
  induction evs as [|e evs IH]; cbn [forallb existsb]; [reflexivity|].
  rewrite andb_true_iff. intros [He Hevs]. rewrite (IH Hevs).
  destruct e; try discriminate He; reflexivity.
Qed.

(* ================================================================== *)
(** ** The injection sequence in general *)

Ltac unfold_inject :=
  cbv [run inject_dll call inject_dll_body inject_try resolve_load_library
       find_remote_module_base find_remote_module_base_body is_target_32bit
       try_finally bind when print emit ret return_ raise].

Section Injection.

Context {R : Type}.
Variable os : OS.
Variable process_id : Z.
Variable dll_path : string.

Let payload : bytes := encode_utf8 (abspath os dll_path) ++ [x00].
Let dll_size : Z := Z.of_nat (List.length payload).
Let h_process : Z := OpenProcess os process_id.
Let remote_memory : Z := VirtualAllocEx os h_process dll_size.
Let target_32bit : bool := IsWow64Process os h_process.
Let cross_arch : bool := is_self_64bit os && target_32bit.

(** The trace up to the [try]. *)
Let opening : trace :=
  [EvPrint (MsgOpening process_id); EvOpenProcess process_id;
   EvIsWow64Process h_process; EvPrint (MsgInjector (is_self_64bit os));
   EvPrint (MsgTarget target_32bit)]
  ++ (if cross_arch then [EvPrint MsgCrossArch] else []).

(** When WriteProcessMemory reports failure (its BOOL is FALSE),
    [inject_dll] prints the write error and returns [False]; the trace
    ends there, with the process handle closed and no address resolution
    and no remote thread. *)
Lemma inject_dll_write_failure_aborts :
  path_exists os dll_path = true ->
  h_process <> 0 ->
  remote_memory <> 0 ->
  fst (WriteProcessMemory os h_process remote_memory payload dll_size) = false ->
  run (inject_dll (R:=R) os process_id dll_path)
  = (Next false,
     opening
     ++ [EvVirtualAllocEx h_process dll_size;
         EvPrint (MsgAllocated dll_size remote_memory);
         EvWriteProcessMemory h_process remote_memory payload dll_size;
         EvPrint (ErrWriteFailed (get_last_error os));
         EvCloseHandle h_process]).
Proof.
  intros Hpath Hopen Halloc Hwrite.
  unfold_inject. rewrite Hpath. cbn [negb app].
  fold payload dll_size h_process.
  destruct (h_process =? 0) eqn:E; [apply Z.eqb_eq in E; contradiction|].
  fold target_32bit cross_arch. unfold opening.
  fold remote_memory.
  destruct (remote_memory =? 0) eqn:E'; [apply Z.eqb_eq in E'; contradiction|].
  destruct (WriteProcessMemory os h_process remote_memory payload dll_size)
    as [ok written].
  cbn [fst] in Hwrite. subst ok.
  destruct cross_arch; reflexivity.
Qed.

(** C7: a short write is a failed write.  With WriteProcessMemory behaving
    as documented, whenever fewer bytes were written than the
    null-terminated payload path holds, [inject_dll] prints the write
    error and returns [False]; the trace ends with the process handle
    closed, and neither the local nor the remote address resolution is
    started. *)
Theorem inject_dll_short_write_aborts :
  writes_whole_range os ->
  path_exists os dll_path = true ->
  h_process <> 0 ->
  remote_memory <> 0 ->
  snd (WriteProcessMemory os h_process remote_memory payload dll_size)
  < dll_size ->
  run (inject_dll (R:=R) os process_id dll_path)
  = (Next false,
     opening
     ++ [EvVirtualAllocEx h_process dll_size;
         EvPrint (MsgAllocated dll_size remote_memory);
         EvWriteProcessMemory h_process remote_memory payload dll_size;
         EvPrint (ErrWriteFailed (get_last_error os));
         EvCloseHandle h_process]).
Proof.
  intros Hwhole Hpath Hopen Halloc Hshort.
  apply inject_dll_write_failure_aborts; try assumption.
  destruct (fst (WriteProcessMemory os h_process remote_memory payload dll_size))
    eqn:Hok; [|reflexivity].
  apply Hwhole in Hok. lia.
Qed.

Ltac split_branch :=
  match goal with
  | |- context [WriteProcessMemory ?o ?h ?a ?d ?n] =>
      destruct (WriteProcessMemory o h a d n) as [? ?] eqn:?
  | |- context [if ?c then _ else _] =>
      lazymatch c with
      | context [if _ then _ else _] => fail
      | context [match _ with _ => _ end] => fail
      | _ => destruct c eqn:?
      end
  end;
  cbv beta iota zeta.

Ltac decide_in H :=
  cbn [In app] in H;
  repeat (destruct H as [H|H]; try discriminate H);
  try contradiction.

(** C9: when the injector is not a 64-bit process facing a WoW64 target,
    no module snapshot is taken and no remote read is issued (neither
    [find_remote_module_base] nor [find_remote_export] runs).  Once the
    payload path is written, the very next calls are GetModuleHandleW and
    GetProcAddress on the injector's own kernel32; when that address is
    not NULL and passes the range check the remote thread is created at
    it, and no thread is ever created at another address. *)
Theorem inject_dll_same_mode_local_lookup :
  cross_arch = false ->
  existsb is_remote_resolution
    (snd (run (inject_dll (R:=R) os process_id dll_path))) = false
  /\
  (path_exists os dll_path = true ->
   h_process <> 0 ->
   remote_memory <> 0 ->
   fst (WriteProcessMemory os h_process remote_memory payload dll_size) = true ->
   exists rest,
     snd (run (inject_dll (R:=R) os process_id dll_path))
     = opening
       ++ [EvVirtualAllocEx h_process dll_size;
           EvPrint (MsgAllocated dll_size remote_memory);
           EvWriteProcessMemory h_process remote_memory payload dll_size;
           EvPrint (MsgWrote
                      (snd (WriteProcessMemory os h_process remote_memory
                              payload dll_size)));
           EvGetModuleHandleW;
           EvGetProcAddress (GetModuleHandleW os)]
       ++ rest
     /\
     (GetProcAddress os (GetModuleHandleW os) <> 0 ->
      target_32bit && (GetProcAddress os (GetModuleHandleW os) >? 0xFFFFFFFF)
      = false ->
      In (EvCreateRemoteThread h_process
            (GetProcAddress os (GetModuleHandleW os)) remote_memory) rest))
  /\
  (forall h start param,
     In (EvCreateRemoteThread h start param)
        (snd (run (inject_dll (R:=R) os process_id dll_path))) ->
     start = GetProcAddress os (GetModuleHandleW os)).
Proof.
  intros Hcross. split; [|split].
  - unfold_inject.
    fold payload dll_size h_process. fold target_32bit. fold cross_arch.
    fold remote_memory. rewrite Hcross.
    repeat split_branch; reflexivity.
  - intros Hpath Hopen Halloc Hwrite. unfold_inject.
    fold payload dll_size h_process. fold target_32bit. fold cross_arch.
    fold remote_memory. unfold opening. rewrite Hcross, Hpath. cbn [negb].
    destruct (h_process =? 0) eqn:E; [apply Z.eqb_eq in E; contradiction|].
    destruct (remote_memory =? 0) eqn:E'; [apply Z.eqb_eq in E'; contradiction|].
    destruct (WriteProcessMemory os h_process remote_memory payload dll_size)
      as [ok written].
    cbn [fst] in Hwrite. subst ok. cbn [negb snd].
    repeat split_branch; cbn [snd app]; eexists;
      (split; [reflexivity|]); intros Hnz Hguard;
      try (exfalso; apply Hnz, Z.eqb_eq; assumption);
      try discriminate Hguard;
      cbn [In]; tauto.
  - unfold_inject.
    fold payload dll_size h_process. fold target_32bit. fold cross_arch.
    fold remote_memory. rewrite Hcross.
    repeat split_branch; cbn [fst snd app]; intros h start param H;
      decide_in H; injection H as _ <- _; reflexivity.
Qed.

Ltac in_trace H :=
  repeat rewrite in_app_iff in H; cbn [In] in H;
  repeat match type of H with
         | _ \/ _ => destruct H as [H|H]
         end;
  try discriminate H; try contradiction;
  try (match goal with
       | Hr : forallb is_read ?evs = true |- _ =>
           apply (in_reads_only _ _ Hr) in H; discriminate H
       end).

(** C8: with a 64-bit injector and a WoW64 target, when the address
    resolved for LoadLibraryA (the one the script prints) is above
    0xFFFFFFFF, [inject_dll] prints its own error for that, returns
    [False] and creates no remote thread. *)
Theorem inject_dll_rejects_address_beyond_32_bits :
  is_self_64bit os = true ->
  target_32bit = true ->
  forall a,
    In (EvPrint (MsgLoadLibraryAt a))
       (snd (run (inject_dll (R:=R) os process_id dll_path))) ->
    a > 0xFFFFFFFF ->
    fst (run (inject_dll (R:=R) os process_id dll_path)) = Next false
    /\ In (EvPrint ErrExceeds32BitRange)
          (snd (run (inject_dll (R:=R) os process_id dll_path)))
    /\ existsb is_create_thread
         (snd (run (inject_dll (R:=R) os process_id dll_path))) = false.
Proof.
  intros Hself Htarget a.
  unfold_inject.
  fold payload dll_size h_process. fold target_32bit.
  fold remote_memory. rewrite Hself, Htarget. cbn [andb].
  repeat split_branch.
  1-5: intros H _; exfalso; cbn [snd app] in H; decide_in H.
  destruct (walk_modules "kernel32.dll"
              (Module32Walk os (CreateToolhelp32Snapshot os process_id)))
    as [kernel32_base|]; cbv beta iota zeta;
    [|intros H _; exfalso; cbn [snd app] in H; decide_in H].
  match goal with
  | |- context [find_remote_export ?o ?h ?b ?n ?t0] =>
      destruct (reads_only_find_remote_export (R:=bool) o h b n t0)
        as (evs & Hevs & Hreads);
      destruct (find_remote_export (R:=bool) o h b n t0)
        as [[[addr|]|r|e] tr1]
  end; cbn [snd] in Hevs; subst tr1; cbv beta iota zeta.
  2-4: intros H _; exfalso; cbn [snd] in H; in_trace H.
  destruct (addr >? 4294967295) eqn:Hguard; cbv beta iota zeta.
  - intros _ _. cbn [fst snd]. split; [reflexivity|]. split.
    + rewrite !in_app_iff. cbn [In]. tauto.
    + rewrite !existsb_app, (reads_only_no_thread _ Hreads). reflexivity.
  - intros H Ha. exfalso.
    assert (Haddr : addr <= 4294967295) by lia.
    clear Hguard. revert H.
    repeat split_branch; cbn [snd]; intros H; in_trace H;
      injection H as ->; lia.
Qed.

End Injection.

(* ================================================================== *)
(** ** The general statements at concrete scenarios *)

Ltac find_in := vm_compute; repeat (first [left; reflexivity | right]).

Lemma inject_dll_short_write_aborts_witness :
  run (inject_dll (R:=unit)
         (scenario 8 false (false, 3) [] no_memory 0x7100 WAIT_OBJECT_0 0x5000)
         1234 dll)
  = (Next false,
     [EvPrint (MsgOpening 1234); EvOpenProcess 1234; EvIsWow64Process 0x50;
      EvPrint (MsgInjector true); EvPrint (MsgTarget false);
      EvVirtualAllocEx 0x50 15; EvPrint (MsgAllocated 15 0x200000);
      EvWriteProcessMemory 0x50 0x200000 dll_bytes 15;
      EvPrint (ErrWriteFailed 0); EvCloseHandle 0x50]).
Proof.
  apply (inject_dll_short_write_aborts
           (scenario 8 false (false, 3) [] no_memory 0x7100 WAIT_OBJECT_0 0x5000)
           1234 dll).
  - intros h addr data size H. discriminate H.
  - reflexivity.
  - vm_compute. discriminate.
  - vm_compute. discriminate.
  - reflexivity.
Defined.

Lemma inject_dll_rejects_address_beyond_32_bits_witness :
  fst (run (inject_dll (R:=unit) high_kernel32 1234 dll)) = Next false
  /\ In (EvPrint ErrExceeds32BitRange)
        (snd (run (inject_dll (R:=unit) high_kernel32 1234 dll)))
  /\ existsb is_create_thread
       (snd (run (inject_dll (R:=unit) high_kernel32 1234 dll))) = false.
Proof.
  apply (inject_dll_rejects_address_beyond_32_bits high_kernel32 1234 dll
           eq_refl eq_refl (0x100000000 + 0x1111)).
  - find_in.
  - reflexivity.
Defined.

Lemma inject_dll_same_mode_local_lookup_witness :
  existsb is_remote_resolution
    (snd (run (inject_dll (R:=unit) same_mode_target 1234 dll))) = false
  /\
  (exists rest,
     snd (run (inject_dll (R:=unit) same_mode_target 1234 dll))
     = ([EvPrint (MsgOpening 1234); EvOpenProcess 1234; EvIsWow64Process 0x50;
         EvPrint (MsgInjector true); EvPrint (MsgTarget false)] ++ [])
       ++ [EvVirtualAllocEx 0x50 15; EvPrint (MsgAllocated 15 0x200000);
           EvWriteProcessMemory 0x50 0x200000 dll_bytes 15;
           EvPrint (MsgWrote 15);
           EvGetModuleHandleW; EvGetProcAddress 0x7000]
       ++ rest
     /\
     In (EvCreateRemoteThread 0x50 0x7100 0x200000) rest)
  /\
  (forall h start param,
     In (EvCreateRemoteThread h start param)
        (snd (run (inject_dll (R:=unit) same_mode_target 1234 dll))) ->
     start = 0x7100).
Proof.
  destruct (inject_dll_same_mode_local_lookup (R:=unit)
              same_mode_target 1234 dll eq_refl) as (Hremote & Hlocal & Hstart).
  split; [exact Hremote|]. split; [|exact Hstart].
  destruct Hlocal as (rest & Htrace & Hthread);
    [reflexivity | discriminate | discriminate | reflexivity|].
  exists rest. split; [exact Htrace|].
  apply Hthread; [discriminate | reflexivity].
Defined.

(* ================================================================== *)
(** ** Supporting facts *)

(** Each of the two remote resolvers leaves its mark on the trace, so a
    trace without those events is a run that called neither. *)
Lemma find_remote_module_base_leaves_events {R} os process_id module_name tr :
  existsb is_remote_resolution
    (snd (find_remote_module_base (R:=R) os process_id module_name tr)) = true.
Proof.
  cbv [find_remote_module_base find_remote_module_base_body call bind emit
       return_].
  match goal with
  | |- context [if ?c then _ else _] => destruct c
  end; cbn [snd]; rewrite !existsb_app; cbn [existsb is_remote_resolution];
    rewrite ?orb_true_r; reflexivity.
Qed.

Lemma find_remote_export_leaves_events {R} os h_process module_base
    function_name func_name_bytes tr :
  encode_ascii function_name = Some func_name_bytes ->
  existsb is_remote_resolution
    (snd (find_remote_export (R:=R) os h_process module_base function_name tr))
  = true.
Proof.
  intros Henc.
  unfold find_remote_export, call, find_remote_export_body.
  rewrite Henc. cbn [or_raise]. step. step.
  match goal with
  | |- context [?k (tr ++ [EvReadProcessMemory h_process module_base 64])] =>
      assert (Hk : reads_only k)
        by (unfold unpack_from_I, unpack_from_H; repeat reads_only_step);
      destruct (Hk (tr ++ [EvReadProcessMemory h_process module_base 64]))
        as (evs & Hevs & _);
      destruct (k (tr ++ [EvReadProcessMemory h_process module_base 64]))
        as [[a|r|e] tr1]
  end; cbn [snd] in *; subst tr1;
    rewrite !existsb_app; cbn [existsb is_remote_resolution];
    rewrite ?orb_true_r; reflexivity.
Qed.

(** X20: once the target process is open, whatever happens in the [try]
    block (a return from any stage or an exception), the last thing
    [inject_dll] does is close the process handle. *)
Lemma inject_dll_closes_process_handle {R} os process_id dll_path :
  path_exists os dll_path = true ->
  OpenProcess os process_id <> 0 ->
  exists tr,
    snd (run (inject_dll (R:=R) os process_id dll_path))
    = tr ++ [EvCloseHandle (OpenProcess os process_id)].
Proof.
  intros Hpath Hopen.
  cbv [run inject_dll call inject_dll_body is_target_32bit try_finally bind
       when print emit ret return_].
  rewrite Hpath. cbn [negb].
  destruct (OpenProcess os process_id =? 0) eqn:E;
    [apply Z.eqb_eq in E; contradiction|].
  destruct (is_self_64bit os && IsWow64Process os (OpenProcess os process_id));
    cbv beta iota zeta.
  all: match goal with
  | |- context [inject_try ?o ?p ?h ?t ?c ?b ?n ?t0] =>
      destruct (inject_try o p h t c b n t0) as [[a|r|e] tr1]
  end; cbn [snd]; eauto.
Qed.

(* ================================================================== *)
(** ** The checked reads of [find_remote_export] *)

Section HeaderReads.

Context {R : Type}.
Variable os : OS.
Variables h_process module_base : Z.
Variable function_name : string.
Variable tr : trace.

Let read_dos := EvReadProcessMemory h_process module_base 64.
Let dos_header :=
  buffer 64 (snd (ReadProcessMemory os tr h_process module_base 64)).
Let e_lfanew := field 4 dos_header 0x3C.
Let read_pe := EvReadProcessMemory h_process (module_base + e_lfanew) 256.
Let pe_data :=
  buffer 256 (snd (ReadProcessMemory os (tr ++ [read_dos]) h_process
                     (module_base + e_lfanew) 256)).
Let export_rva :=
  if field 2 pe_data 24 =? 0x10B then field 4 pe_data (24 + 96)
  else field 4 pe_data (24 + 112).
Let read_dir := EvReadProcessMemory h_process (module_base + export_rva) 40.

(** X1: the three header reads are checked.  When the DOS header read,
    the PE header read or the export directory read returns FALSE,
    [find_remote_export] returns [None] and that failed read is the last
    one it issues. *)
Theorem find_remote_export_header_read_failure func_name_bytes
    (Henc : encode_ascii function_name = Some func_name_bytes) :
  (fst (ReadProcessMemory os tr h_process module_base 64) = false ->
   find_remote_export (R:=R) os h_process module_base function_name tr
   = (Next None, tr ++ [read_dos]))
  /\
  (fst (ReadProcessMemory os tr h_process module_base 64) = true ->
   fst (ReadProcessMemory os (tr ++ [read_dos]) h_process
          (module_base + e_lfanew) 256) = false ->
   find_remote_export (R:=R) os h_process module_base function_name tr
   = (Next None, tr ++ [read_dos; read_pe]))
  /\
  (fst (ReadProcessMemory os tr h_process module_base 64) = true ->
   fst (ReadProcessMemory os (tr ++ [read_dos]) h_process
          (module_base + e_lfanew) 256) = true ->
   field 4 pe_data 0 = 0x4550 ->
   field 2 pe_data 24 = 0x10B \/ field 2 pe_data 24 = 0x20B ->
   export_rva <> 0 ->
   fst (ReadProcessMemory os (tr ++ [read_dos; read_pe]) h_process
          (module_base + export_rva) 40) = false ->
   find_remote_export (R:=R) os h_process module_base function_name tr
   = (Next None, tr ++ [read_dos; read_pe; read_dir])).
Proof.
  repeat split.
  - intros Hok. unfold find_remote_export, call, find_remote_export_body.
    rewrite Henc. cbn [or_raise]. step. step. rewrite Hok. reflexivity.
  - intros Hok1 Hok2.
    unfold find_remote_export, call, find_remote_export_body.
    rewrite Henc. cbn [or_raise]. step. step. rewrite Hok1. cbn [negb].
    step. fold dos_header e_lfanew read_dos. step. rewrite Hok2. cbn [negb].
    rewrite <- app_assoc. reflexivity.
  - intros Hok1 Hok2 Hsig Hmagic Hrva Hok3.
    unfold find_remote_export, call, find_remote_export_body.
    rewrite Henc. cbn [or_raise]. step. step. rewrite Hok1. cbn [negb].
    step. fold dos_header e_lfanew read_dos. step. rewrite Hok2. cbn [negb].
    fold pe_data.
    replace ((tr ++ [read_dos])
             ++ [EvReadProcessMemory h_process (module_base + e_lfanew) 256])
      with (tr ++ [read_dos; read_pe])
      by (rewrite <- app_assoc; reflexivity).
    unfold pe_data at 1. step. fold pe_data. rewrite Hsig.
    cbn [Z.eqb Pos.eqb negb].
    unfold pe_data at 1. step. fold pe_data.
    assert (Hstep :
      (if field 2 pe_data 24 =? 267
       then unpack_from_I (R:=option Z) pe_data (24 + 96)
       else if field 2 pe_data 24 =? 523
            then unpack_from_I pe_data (24 + 112)
            else return_ None)
      = ret export_rva).
    { unfold export_rva. destruct Hmagic as [-> | ->]; cbn [Z.eqb Pos.eqb];
        unfold pe_data, unpack_from_I;
        rewrite unpack_from_buffer by (cbn; lia); reflexivity. }
    rewrite Hstep. step.
    destruct (export_rva =? 0) eqn:Hz; [apply Z.eqb_eq in Hz; contradiction|].
    step. rewrite Hok3. cbn [negb].
    rewrite <- app_assoc. reflexivity.
Qed.

End HeaderReads.

Lemma find_remote_export_header_read_failure_witness :
  find_remote_export (R:=unit)
    (reader_os (memory_read unreadable_directory_image)) 7 0x10000
    "LoadLibraryA" []
  = (Next None,
     [EvReadProcessMemory 7 0x10000 64;
      EvReadProcessMemory 7 (0x10000 + 0x80) 256;
      EvReadProcessMemory 7 (0x10000 + 0x200) 40]).
Proof.
  refine (proj2 (proj2 (find_remote_export_header_read_failure
            (reader_os (memory_read unreadable_directory_image)) 7 0x10000
            "LoadLibraryA" [] (ascii_bytes "LoadLibraryA") eq_refl))
            _ _ _ _ _ _).
  - vm_compute. reflexivity.
  - vm_compute. reflexivity.
  - vm_compute. reflexivity.
  - left. vm_compute. reflexivity.
  - vm_compute. discriminate.
  - vm_compute. reflexivity.
Defined.

(* ================================================================== *)
(** ** [find_remote_export] only reads, and only through its handle *)

Lemma adds_only_ret {R A} p (a : A) : adds_only (R:=R) p (ret a).
Proof. intros tr. exists []. now rewrite app_nil_r. Qed.

Lemma adds_only_return {R A} p (r : R) : adds_only (A:=A) p (return_ r).
Proof. intros tr. exists []. now rewrite app_nil_r. Qed.

Lemma adds_only_or_raise {R A} p e (o : option A) :
  adds_only (R:=R) p (or_raise e o).
Proof. intros tr. exists []. destruct o; now rewrite app_nil_r. Qed.

Lemma adds_only_read {R} os h addr size :
  adds_only (R:=R) (is_read_on h) (read_process_memory os h addr size).
Proof.
  intros tr. exists [EvReadProcessMemory h addr size].
  unfold read_process_memory.
  destruct (ReadProcessMemory os tr h addr size). split; [reflexivity|].
  cbn [forallb is_read_on]. now rewrite Z.eqb_refl.
Qed.

Lemma adds_only_bind {R A B} p (c : M R A) (k : A -> M R B) :
  adds_only p c -> (forall a, adds_only p (k a)) -> adds_only p (bind c k).
Proof.
  intros Hc Hk tr. destruct (Hc tr) as (e1 & H1 & F1). unfold bind.
  destruct (c tr) as [[a|r|e] tr1]; cbn [snd] in *; subst tr1.
  - destruct (Hk a (tr ++ e1)) as (e2 & H2 & F2).
    exists (e1 ++ e2). rewrite H2, app_assoc, forallb_app, F1, F2.
    split; reflexivity.
  - exists e1. split; [reflexivity | exact F1].
  - exists e1. split; [reflexivity | exact F1].
Qed.

Lemma adds_only_call {R R'} p (body : M R R) :
  adds_only p body -> adds_only (R:=R') p (call body).
Proof.
  intros Hb tr. destruct (Hb tr) as (evs & H & F). exists evs.
  unfold call. destruct (body tr) as [[a|r|e] tr1]; split; assumption.
Qed.

Lemma adds_only_search os h_process module_base func_name_bytes
    name_rvas_data ordinals_data func_rvas_data idx :
  adds_only (is_read_on h_process)
    (search_names os h_process module_base func_name_bytes
       name_rvas_data ordinals_data func_rvas_data idx).
Proof.
  induction idx as [|i rest IH]; cbn [search_names].
  - apply adds_only_ret.
  - apply adds_only_bind; [apply adds_only_or_raise|]. intros name_rva.
    apply adds_only_bind; [apply adds_only_read|]. intros [ok name_buf].
    destruct (bytes_eqb (split0 name_buf) func_name_bytes); [|exact IH].
    apply adds_only_bind; [apply adds_only_or_raise|]. intros ordinal.
    apply adds_only_bind; [apply adds_only_or_raise|]. intros func_rva.
    apply adds_only_return.
Qed.

Ltac adds_only_step :=
  first
    [ apply adds_only_ret
    | apply adds_only_return
    | apply adds_only_or_raise
    | apply adds_only_read
    | apply adds_only_search
    | apply adds_only_bind; [|intros ?]
    | match goal with
      | |- adds_only _ (match ?x with (_, _) => _ end) => destruct x
      | |- adds_only _ (if ?c then _ else _) => destruct c
      end ].

(** X2: [find_remote_export] is read-only.  Whatever the remote process
    answers and however the call ends (an address, [None] or an
    exception), the trace it leaves is the trace it started from followed
    by [ReadProcessMemory] calls on the handle it was given, and by nothing
    else. *)
Theorem find_remote_export_only_reads {R} os h_process module_base
    function_name tr :
  exists reads,
    snd (find_remote_export (R:=R) os h_process module_base function_name tr)
    = tr ++ reads
    /\ forallb (is_read_on h_process) reads = true.
Proof.
  revert tr.
  change (adds_only (is_read_on h_process)
            (find_remote_export (R:=R) os h_process module_base function_name)).
  apply adds_only_call. unfold find_remote_export_body.
  unfold unpack_from_I, unpack_from_H.
  repeat adds_only_step.
Qed.

(* ================================================================== *)
(** ** Resolving twice *)

Lemma trace_independent_ret {R A} (a : A) : trace_independent (R:=R) (ret a).
Proof. intros tr1 tr2. reflexivity. Qed.

Lemma trace_independent_return {R A} (r : R) :
  trace_independent (A:=A) (return_ r).
Proof. intros tr1 tr2. reflexivity. Qed.

Lemma trace_independent_or_raise {R A} e (o : option A) :
  trace_independent (R:=R) (or_raise e o).
Proof. intros tr1 tr2. destruct o; reflexivity. Qed.

Lemma trace_independent_read {R} os h addr size :
  static_reads os ->
  trace_independent (R:=R) (read_process_memory os h addr size).
Proof.
  intros Hos tr1 tr2. unfold read_process_memory.
  rewrite (Hos tr1 tr2).
  destruct (ReadProcessMemory os tr2 h addr size). reflexivity.
Qed.

Lemma trace_independent_bind {R A B} (c : M R A) (k : A -> M R B) :
  trace_independent c -> (forall a, trace_independent (k a)) ->
  trace_independent (bind c k).
Proof.
  intros Hc Hk tr1 tr2. specialize (Hc tr1 tr2). unfold bind.
  destruct (c tr1) as [c1 t1], (c tr2) as [c2 t2]. cbn [fst] in Hc. subst c2.
  destruct c1 as [a|r|e]; [apply Hk | reflexivity | reflexivity].
Qed.

Lemma trace_independent_call {R R'} (body : M R R) :
  trace_independent body -> trace_independent (R:=R') (call body).
Proof.
  intros Hb tr1 tr2. specialize (Hb tr1 tr2). unfold call.
  destruct (body tr1) as [c1 t1], (body tr2) as [c2 t2]. cbn [fst] in Hb.
  subst c2. destruct c1; reflexivity.
Qed.

Lemma trace_independent_search os h_process module_base func_name_bytes
    name_rvas_data ordinals_data func_rvas_data idx :
  static_reads os ->
  trace_independent
    (search_names os h_process module_base func_name_bytes
       name_rvas_data ordinals_data func_rvas_data idx).
Proof.
  intros Hos. induction idx as [|i rest IH]; cbn [search_names].
  - apply trace_independent_ret.
  - apply trace_independent_bind; [apply trace_independent_or_raise|].
    intros name_rva.
    apply trace_independent_bind; [now apply trace_independent_read|].
    intros [ok name_buf].
    destruct (bytes_eqb (split0 name_buf) func_name_bytes); [|exact IH].
    apply trace_independent_bind; [apply trace_independent_or_raise|].
    intros ordinal.
    apply trace_independent_bind; [apply trace_independent_or_raise|].
    intros func_rva. apply trace_independent_return.
Qed.

Ltac trace_independent_step Hos :=
  first
    [ apply trace_independent_ret
    | apply trace_independent_return
    | apply trace_independent_or_raise
    | apply (trace_independent_read _ _ _ _ Hos)
    | apply (trace_independent_search _ _ _ _ _ _ _ _ Hos)
    | apply trace_independent_bind; [|intros ?]
    | match goal with
      | |- trace_independent (match ?x with (_, _) => _ end) => destruct x
      | |- trace_independent (if ?c then _ else _) => destruct c
      end ].

(** X3: resolving is repeatable.  When the remote reads do not depend on
    what was called before (the image is not modified), two calls of
    [find_remote_export] with the same handle, base and name end the same
    way, whatever happened before each of them. *)
Theorem find_remote_export_repeatable {R} os h_process module_base
    function_name tr1 tr2 :
  static_reads os ->
  fst (find_remote_export (R:=R) os h_process module_base function_name tr1)
  = fst (find_remote_export (R:=R) os h_process module_base function_name tr2).
Proof.
  intros Hos. revert tr1 tr2.
  change (trace_independent
            (find_remote_export (R:=R) os h_process module_base function_name)).
  apply trace_independent_call. unfold find_remote_export_body.
  unfold unpack_from_I, unpack_from_H.
  repeat trace_independent_step Hos.
Qed.

Lemma find_remote_export_repeatable_witness :
  fst (find_remote_export (R:=unit)
         (reader_os (memory_read (kernel32_image 0x10000))) 7 0x10000
         "LoadLibraryW" [])
  = fst (find_remote_export (R:=unit)
           (reader_os (memory_read (kernel32_image 0x10000))) 7 0x10000
           "LoadLibraryW"
           [EvReadProcessMemory 7 0x10000 64; EvCloseHandle 0x60]).
Proof.
  apply (find_remote_export_repeatable
           (reader_os (memory_read (kernel32_image 0x10000))) 7 0x10000
           "LoadLibraryW" []
           [EvReadProcessMemory 7 0x10000 64; EvCloseHandle 0x60]).
  intros tr1 tr2 h addr size. reflexivity.
Defined.

(* ================================================================== *)
(** ** Names that can never be found *)

Lemma split0_has_no_zero data : no_zero (split0 data) = true.
Proof.
  induction data as [|b r IH]; cbn [split0]; [reflexivity|].
  destruct (Byte.eqb b x00) eqn:E; [reflexivity|].
  cbn [no_zero forallb]. rewrite E. exact IH.
Qed.

Lemma no_zero_not_in s : no_zero s = true -> ~ In x00 s.
Proof.
  unfold no_zero. rewrite forallb_forall. intros H Hin.
  specialize (H _ Hin). discriminate H.
Qed.

(** The search when no window can show the requested name. *)
Lemma search_names_no_candidate os h_process module_base func_name_bytes
    num_names copied ordinals_data func_rvas_data :
  (forall name_buf, bytes_eqb (split0 name_buf) func_name_bytes = false) ->
  forall idx tr,
    (forall i, In i idx -> 0 <= i < num_names) ->
    exists tr',
      search_names os h_process module_base func_name_bytes
        (buffer (num_names * 4) copied) ordinals_data func_rvas_data idx tr
      = (Next tt, tr').
Proof.
  intros Hnever. induction idx as [|i rest IH]; intros tr Hidx.
  - exists tr. reflexivity.
  - cbn [search_names].
    destruct (Hidx i (or_introl eq_refl)) as [Hlo Hhi].
    rewrite bind_unpack_I by lia. step. rewrite Hnever.
    apply IH. intros j Hj. apply Hidx. right. exact Hj.
Qed.

Lemma find_remote_export_no_candidate {R} os h_process module_base
    function_name func_name_bytes tr :
  encode_ascii function_name = Some func_name_bytes ->
  (forall name_buf, bytes_eqb (split0 name_buf) func_name_bytes = false) ->
  fst (find_remote_export (R:=R) os h_process module_base function_name tr)
  = Next None.
Proof.
  intros Henc Hnever.
  unfold find_remote_export, call, find_remote_export_body.
  rewrite Henc. cbn [or_raise]. step. step.
  destruct (fst (ReadProcessMemory os tr h_process module_base 64));
    cbn [negb]; [|reflexivity].
  step. step.
  match goal with
  | |- context [negb (fst ?r)] => destruct (fst r)
  end; cbn [negb]; [|reflexivity].
  step.
  match goal with
  | |- context [negb (?a =? 17744)] => destruct (a =? 17744)
  end; cbn [negb]; [|reflexivity].
  step.
  match goal with
  | |- context [if ?a =? 267 then _ else _] =>
      destruct (a =? 267); [|destruct (a =? 523); [|reflexivity]]
  end.
  all: step;
    match goal with
    | |- context [if ?a =? 0 then _ else _] =>
        destruct (a =? 0); [reflexivity|]
    end;
    step;
    match goal with
    | |- context [negb (fst ?r)] => destruct (fst r)
    end; cbn [negb]; [|reflexivity];
    do 5 step; do 3 step; unfold bind at 1;
    match goal with
    | |- context [search_names ?o ?h ?b ?f (buffer (?n * 4) ?c) ?a2 ?a3 (range ?n) ?t0] =>
        destruct (search_names_no_candidate o h b f n c a2 a3 Hnever (range n) t0
                    (range_bounds n)) as (tr' & ->)
    end;
    reflexivity.
Qed.

Lemma find_remote_export_zero_byte {R} os h_process module_base
    function_name func_name_bytes tr :
  encode_ascii function_name = Some func_name_bytes ->
  In x00 func_name_bytes ->
  fst (find_remote_export (R:=R) os h_process module_base function_name tr)
  = Next None.
Proof.
  intros Henc Hzero.
  apply find_remote_export_no_candidate with func_name_bytes; [exact Henc|].
  intros name_buf.
  destruct (bytes_eqb (split0 name_buf) func_name_bytes) eqn:E;
    [|reflexivity].
  apply bytes_eqb_eq in E. exfalso.
  apply (no_zero_not_in func_name_bytes); [|exact Hzero].
  rewrite <- E. apply split0_has_no_zero.
Qed.

(** X4: a requested name that contains the zero character is never
    resolved.  Every candidate is cut at its first zero byte before the
    comparison, so for such a name [find_remote_export] returns no address,
    whatever the remote process holds and whether its reads succeed or
    not. *)
Theorem find_remote_export_name_with_zero_byte {R} os h_process module_base
    function_name tr :
  In zero (list_ascii_of_string function_name) ->
  forall addr,
    fst (find_remote_export (R:=R) os h_process module_base function_name tr)
    <> Next (Some addr).
Proof.
  intros Hzero addr.
  destruct (encode_ascii function_name) as [func_name_bytes|] eqn:Henc.
  - rewrite (find_remote_export_zero_byte os h_process module_base
               function_name func_name_bytes tr Henc); [discriminate|].
    unfold encode_ascii in Henc.
    destruct (forallb is_ascii (list_ascii_of_string function_name));
      [|discriminate Henc].
    injection Henc as <-.
    change x00 with (byte_of_ascii zero). apply in_map. exact Hzero.
  - rewrite (find_remote_export_not_ascii os h_process module_base
               function_name tr Henc).
    discriminate.
Qed.

Lemma find_remote_export_name_with_zero_byte_witness :
  fst (find_remote_export (R:=unit)
         (reader_os (memory_read (kernel32_image 0x10000))) 7 0x10000
         (String "L" (String zero "A")) [])
  <> Next (Some (0x10000 + 0x1111)).
Proof.
  apply (find_remote_export_name_with_zero_byte
           (reader_os (memory_read (kernel32_image 0x10000))) 7 0x10000
           (String "L" (String zero "A")) []).
  cbn [list_ascii_of_string In]. right. left. reflexivity.
Defined.

(* ================================================================== *)
(** ** The reads of a resolution *)

Lemma skipn_nth_cons {A} (d : A) : forall l k,
  (k < List.length l)%nat -> skipn k l = nth k l d :: skipn (S k) l.
Proof.
  induction l as [|x l IH]; intros k Hk; cbn [List.length] in Hk; [lia|].
  destruct k as [|k]; [reflexivity|].
  cbn [skipn nth]. rewrite (IH k) by lia. reflexivity.
Qed.

Section SearchReads.

Variable os : OS.
Variable m : memory.
Variables h_process module_base : Z.
Variables func_name_bytes name_rvas_data ordinals_data func_rvas_data : bytes.
Variables name_rvas ordinals funcs : list Z.

Hypothesis Hos : ReadProcessMemory os = memory_read m.
Hypothesis Hname_rvas : forall i, (i < List.length name_rvas)%nat ->
  unpack_from 4 name_rvas_data (Z.of_nat i * 4) = Some (nth i name_rvas 0).
Hypothesis Hordinals : forall i, (i < List.length ordinals)%nat ->
  unpack_from 2 ordinals_data (Z.of_nat i * 2) = Some (nth i ordinals 0).
Hypothesis Hfuncs : forall j, (j < List.length funcs)%nat ->
  unpack_from 4 func_rvas_data (Z.of_nat j * 4) = Some (nth j funcs 0).
Hypothesis Hrange : forall i, (i < List.length ordinals)%nat ->
  0 <= nth i ordinals 0 < Z.of_nat (List.length funcs).

Lemma search_names_reads : forall names k tr,
  List.length name_rvas = (k + List.length names)%nat ->
  List.length ordinals = (k + List.length names)%nat ->
  (forall i, (i < List.length names)%nat ->
     exists win,
       load m (module_base + nth (k + i) name_rvas 0) 128 = Some win /\
       split0 win = nth i names []) ->
  snd (search_names os h_process module_base func_name_bytes
         name_rvas_data ordinals_data func_rvas_data
         (map Z.of_nat (seq k (List.length names))) tr)
  = tr ++ map (name_read h_process module_base)
            (firstn (candidates_read func_name_bytes names)
               (skipn k name_rvas)).
Proof.
  induction names as [|s rest IH]; intros k tr Hn Ho Hwin.
  - cbn [List.length seq map search_names]. unfold candidates_read.
    cbn [first_match List.length firstn map]. cbn [ret snd].
    now rewrite app_nil_r.
  - cbn [List.length seq map search_names].
    cbn [List.length] in Hn, Ho.
    unfold unpack_from_I at 1. rewrite Hname_rvas by lia. cbn [or_raise]. step.
    destruct (Hwin 0%nat ltac:(cbn [List.length]; lia))
      as (win & Hload & Hsplit).
    rewrite Nat.add_0_r in Hload. cbn [nth] in Hsplit.
    change 128%nat with (Z.to_nat 128) in Hload.
    rewrite (bind_read_memory os m _ _ 128 win _ _ Hos Hload), Hsplit.
    rewrite (skipn_nth_cons 0 name_rvas k) by lia.
    unfold candidates_read. cbn [first_match].
    destruct (bytes_eqb s func_name_bytes) eqn:E.
    + unfold unpack_from_H. rewrite Hordinals by lia. cbn [or_raise]. step.
      destruct (Hrange k ltac:(lia)) as [Hlo Hhi].
      unfold unpack_from_I.
      rewrite <- (Z2Nat.id (nth k ordinals 0)) at 1 by assumption.
      rewrite Hfuncs by lia. cbn [or_raise]. step.
      cbn [return_ snd firstn map]. reflexivity.
    + assert (Hrest : forall i, (i < List.length rest)%nat ->
        exists win',
          load m (module_base + nth (S k + i) name_rvas 0) 128 = Some win' /\
          split0 win' = nth i rest []).
      { intros i Hi.
        destruct (Hwin (S i) ltac:(cbn [List.length]; lia))
          as (win' & Hload' & Hsplit').
        exists win'. cbn [nth] in Hsplit'.
        rewrite Nat.add_succ_r in Hload'.
        change (S k + i)%nat with (S (k + i)).
        split; [exact Hload' | exact Hsplit']. }
      rewrite (IH (S k) _ ltac:(lia) ltac:(lia) Hrest).
      rewrite <- app_assoc. unfold candidates_read.
      destruct (first_match func_name_bytes rest) as [i|];
        cbn [option_map firstn map app]; reflexivity.
Qed.

End SearchReads.

(** The whole run on a well-formed, readable image with names of at most
    128 bytes: the answer and the reads. *)
Lemma find_remote_export_on_well_formed {R} os m l t h_process
    module_base function_name func_name_bytes tr :
  ReadProcessMemory os = memory_read m ->
  well_formed m module_base l t ->
  Forall (fun s => (List.length s <= 128)%nat) (nameTable t) ->
  encode_ascii function_name = Some func_name_bytes ->
  find_remote_export (R:=R) os h_process module_base function_name tr
  = (Next (resolve_spec module_base t func_name_bytes),
     tr ++ header_reads h_process module_base l t
        ++ map (name_read h_process module_base)
             (firstn (candidates_read func_name_bytes (nameTable t))
                (lay_name_rvas l))).
Proof.
  intros Hos Hwf Hshort Henc. destruct Hwf.
  destruct (readable_load _ _ _ wf_dos0) as (dos & Hdos).
  destruct (readable_load _ _ _ wf_pe0) as (pe & Hpe).
  destruct (readable_load _ _ _ wf_directory0) as (ed & Hed).
  destruct (load_array_bulk _ _ _ _ _ wf_functions0) as (_ & fd & Hfd & Hfde).
  destruct (load_array_bulk _ _ _ _ _ wf_name_rvas0) as (Hnl & nd & Hnd & Hnde).
  destruct (load_array_bulk _ _ _ _ _ wf_ordinals0) as (Hol & od & Hod & Hode).
  unfold header_reads.
  set (nf := List.length (functionTable t)) in *.
  set (nn := List.length (nameTable t)) in *.
  pose proof (load_length _ _ _ _ Hnd) as Lnd.
  pose proof (load_length _ _ _ _ Hod) as Lod.
  pose proof (load_length _ _ _ _ Hfd) as Lfd.
  assert (Hnames : forall i, (i < List.length (lay_name_rvas l))%nat ->
            unpack_from 4 nd (Z.of_nat i * 4) = Some (nth i (lay_name_rvas l) 0)).
  { intros i Hi. rewrite Hnl in Hi.
    apply (unpack_of_array 4 nd nn); assumption. }
  assert (Hords : forall i, (i < List.length (ordinalTable t))%nat ->
            unpack_from 2 od (Z.of_nat i * 2) = Some (nth i (ordinalTable t) 0)).
  { intros i Hi. rewrite Hol in Hi.
    apply (unpack_of_array 2 od nn); assumption. }
  assert (Hfuncs : forall j, (j < List.length (functionTable t))%nat ->
            unpack_from 4 fd (Z.of_nat j * 4) = Some (nth j (functionTable t) 0)).
  { intros j Hj. apply (unpack_of_array 4 fd nf); assumption. }
  assert (Hrange : forall i, (i < List.length (ordinalTable t))%nat ->
            0 <= nth i (ordinalTable t) 0 < Z.of_nat (List.length (functionTable t))).
  { intros i Hi. split.
    - rewrite <- (Hode i) by lia. apply le_decode_nonneg.
    - rewrite Forall_forall in wf_ordinals_in_range0.
      apply wf_ordinals_in_range0, nth_In, Hi. }
  assert (Hwin : forall i, (i < List.length (nameTable t))%nat ->
     exists win,
       load m (module_base + nth (0 + i) (lay_name_rvas l) 0) 128 = Some win /\
       split0 win = nth i (nameTable t) []).
  { intros i Hi. cbn [Nat.add].
    destruct (Forall2_nth_both _ 0 [] _ _ wf_names0 i Hi) as (Hnz & Hstr & Hrd).
    destruct (readable_load _ _ _ Hrd) as (win & Hload).
    exists win. split; [exact Hload|].
    apply (window_of_cstring m _ _ win Hnz Hstr Hload).
    rewrite Forall_forall in Hshort. apply Hshort, nth_In, Hi. }
  unfold find_remote_export, call, find_remote_export_body.
  rewrite Henc. cbn [or_raise]. step.
  rewrite (bind_read_memory os m _ _ 64 dos _ _ Hos Hdos). cbn [negb].
  unfold unpack_from_I at 1.
  rewrite (unpack_of_load _ _ _ _ 4 60 _ Hdos wf_e_lfanew0) by lia.
  cbn [or_raise]. step.
  rewrite (bind_read_memory os m _ _ 256 pe _ _ Hos Hpe). cbn [negb].
  unfold unpack_from_I at 1.
  rewrite (unpack_of_load _ _ _ _ 4 0 _ Hpe wf_signature0) by lia.
  cbn [or_raise]. step. cbn [Z.eqb Pos.eqb negb].
  unfold unpack_from_H at 1.
  rewrite (unpack_of_load _ _ _ _ 2 24 _ Hpe wf_magic0) by lia.
  cbn [or_raise]. step.
  assert (Hrva :
    (if (if lay_wide l then 523 else 267) =? 267
     then unpack_from_I (R:=option Z) pe (24 + 96)
     else if (if lay_wide l then 523 else 267) =? 523
          then unpack_from_I pe (24 + 112)
          else return_ None)
    = ret (lay_export_rva l)).
  { unfold unpack_from_I. destruct (lay_wide l); cbn [Z.eqb Pos.eqb].
    - rewrite (unpack_of_load _ _ _ _ 4 (24 + 112) _ Hpe wf_export_rva0) by lia.
      reflexivity.
    - rewrite (unpack_of_load _ _ _ _ 4 (24 + 96) _ Hpe wf_export_rva0) by lia.
      reflexivity. }
  rewrite Hrva. step.
  destruct (lay_export_rva l =? 0) eqn:Hz; [apply Z.eqb_eq in Hz; contradiction|].
  rewrite (bind_read_memory os m _ _ 40 ed _ _ Hos Hed). cbn [negb].
  unfold unpack_from_I at 1.
  rewrite (unpack_of_load _ _ _ _ 4 20 _ Hed wf_num_functions0) by lia.
  cbn [or_raise]. step. unfold unpack_from_I at 1.
  rewrite (unpack_of_load _ _ _ _ 4 24 _ Hed wf_num_names0) by lia.
  cbn [or_raise]. step. unfold unpack_from_I at 1.
  rewrite (unpack_of_load _ _ _ _ 4 28 _ Hed wf_func_rvas_rva0) by lia.
  cbn [or_raise]. step. unfold unpack_from_I at 1.
  rewrite (unpack_of_load _ _ _ _ 4 32 _ Hed wf_name_rvas_rva0) by lia.
  cbn [or_raise]. step. unfold unpack_from_I at 1.
  rewrite (unpack_of_load _ _ _ _ 4 36 _ Hed wf_ordinals_rva0) by lia.
  cbn [or_raise]. step.
  assert (Hn4 : Z.to_nat (Z.of_nat nn * 4) = (nn * 4)%nat) by lia.
  assert (Hn2 : Z.to_nat (Z.of_nat nn * 2) = (nn * 2)%nat) by lia.
  assert (Hf4 : Z.to_nat (Z.of_nat nf * 4) = (nf * 4)%nat) by lia.
  rewrite <- Hn4 in Hnd. rewrite <- Hn2 in Hod. rewrite <- Hf4 in Hfd.
  rewrite (bind_read_memory os m _ _ _ nd _ _ Hos Hnd).
  rewrite (bind_read_memory os m _ _ _ od _ _ Hos Hod).
  rewrite (bind_read_memory os m _ _ _ fd _ _ Hos Hfd).
  unfold range. rewrite Nat2Z.id. unfold bind at 1.
  match goal with
  | |- context [search_names ?o ?h ?b ?f ?a1 ?a2 ?a3 ?ix ?t0] =>
      pose proof (search_names_reads o m h b f a1 a2 a3
                    (lay_name_rvas l) (ordinalTable t) (functionTable t)
                    Hos Hnames Hords Hfuncs Hrange (nameTable t) 0%nat t0
                    Hnl Hol Hwin)
        as Hsearch;
      pose proof (search_names_from o m h b f a1 a2 a3
                    (lay_name_rvas l) (ordinalTable t) (functionTable t)
                    Hos Hnames Hords Hfuncs Hrange (nameTable t) 0%nat t0
                    Hnl Hol Hwin)
        as Hfound;
      change (List.length (nameTable t)) with nn in Hsearch, Hfound;
      destruct (search_names o h b f a1 a2 a3 ix t0) as [c tr'] eqn:Hrun
  end.
  cbn [snd skipn] in Hsearch. cbn [fst] in Hfound. subst tr' c.
  unfold resolve_spec.
  destruct (first_match func_name_bytes (nameTable t)) as [i|];
    cbn [ret]; repeat rewrite <- app_assoc; reflexivity.
Qed.


(** X5: the reads of a resolution on a well-formed, readable image with
    names shorter than 128 bytes.  [find_remote_export] issues the six
    reads of the headers, the export directory and the three arrays, then
    one 128-byte read per candidate name in array order, and stops reading
    at the first match: 6 + i + 1 reads when the first match is at index
    [i], 6 + nameCount reads when there is none. *)
Theorem find_remote_export_reads_on_well_formed {R} os m l t h_process
    module_base function_name func_name_bytes tr :
  ReadProcessMemory os = memory_read m ->
  well_formed m module_base l t ->
  Forall (fun s => (List.length s < 128)%nat) (nameTable t) ->
  encode_ascii function_name = Some func_name_bytes ->
  snd (find_remote_export (R:=R) os h_process module_base function_name tr)
  = tr ++ header_reads h_process module_base l t
       ++ map (name_read h_process module_base)
            (firstn (candidates_read func_name_bytes (nameTable t))
               (lay_name_rvas l)).
Proof.
  intros Hos Hwf Hshort Henc.
  rewrite (find_remote_export_on_well_formed os m l t _ _ _ func_name_bytes
             tr Hos Hwf (shorter_names_fit _ Hshort) Henc).
  reflexivity.
Qed.

Lemma find_remote_export_reads_on_well_formed_witness :
  snd (find_remote_export (R:=unit)
         (reader_os (memory_read duplicate_names_image)) 7 0x10000
         "CreateFileA" [])
  = [EvReadProcessMemory 7 0x10000 64;
     EvReadProcessMemory 7 (0x10000 + 0x80) 256;
     EvReadProcessMemory 7 (0x10000 + 0x200) 40;
     EvReadProcessMemory 7 (0x10000 + 0x280) (3 * 4);
     EvReadProcessMemory 7 (0x10000 + 0x2C0) (3 * 2);
     EvReadProcessMemory 7 (0x10000 + 0x240) (3 * 4);
     EvReadProcessMemory 7 (0x10000 + 0x300) 128;
     EvReadProcessMemory 7 (0x10000 + 0x400) 128].
Proof.
  apply (find_remote_export_reads_on_well_formed
           (reader_os (memory_read duplicate_names_image))
           duplicate_names_image (image_layout duplicate_names)
           duplicate_names_table 7 0x10000 "CreateFileA"
           (ascii_bytes "CreateFileA") []).
  - reflexivity.
  - solve_well_formed.
  - solve_short.
  - vm_compute. reflexivity.
Defined.

(* ================================================================== *)
(** ** [find_remote_module_base] and [find_process_by_name] *)

Lemma walk_modules_found module_name : forall entries base,
  walk_modules module_name entries = Some base <->
  exists before me after,
    entries = before ++ me :: after /\
    Forall (fun e => ~ same_name (szModule e) module_name) before /\
    same_name (szModule me) module_name /\
    modBaseAddr me = base /\ base <> 0.
Proof.
  unfold same_name.
  induction entries as [|e rest IH]; intros base; cbn [walk_modules].
  - split; [discriminate|]. intros (before & me & after & H & _).
    destruct before; discriminate H.
  - destruct (String.eqb (lower (szModule e)) (lower module_name)) eqn:E.
    + apply String.eqb_eq in E. unfold c_void_p_value. split.
      * destruct (modBaseAddr e =? 0) eqn:Hz; [discriminate|].
        intros [= <-]. apply Z.eqb_neq in Hz.
        exists [], e, rest. repeat split; auto.
      * intros (before & me & after & H & Hbefore & Hme & Hbase & Hnz).
        destruct before as [|b before].
        -- cbn [app] in H. injection H as -> _. rewrite Hbase.
           apply Z.eqb_neq in Hnz. now rewrite Hnz.
        -- cbn [app] in H. injection H as -> _.
           inversion Hbefore as [|? ? Hb _]. contradiction.
    + apply String.eqb_neq in E. rewrite IH. split.
      * intros (before & me & after & -> & Hbefore & Hrest).
        exists (e :: before), me, after. repeat split; try tauto.
        constructor; assumption.
      * intros (before & me & after & H & Hbefore & Hme & Hrest).
        destruct before as [|b before].
        -- cbn [app] in H. injection H as -> _. contradiction.
        -- cbn [app] in H. injection H as -> ->.
           exists before, me, after. inversion Hbefore. repeat split; tauto.
Qed.

(** X6: what [find_remote_module_base] finds and what it leaves open.  It
    returns base [b] exactly when the snapshot is valid and the first
    module, in snapshot order, whose lower-cased name is the lower-cased
    request has the non-NULL base [b]; a first match with a NULL base gives
    [None] even when a later module matches.  A valid snapshot handle is
    closed before returning; a failed snapshot leaves only the snapshot
    call on the trace. *)
Theorem find_remote_module_base_first_match {R} os process_id module_name tr :
  let snap := CreateToolhelp32Snapshot os process_id in
  (forall base,
     fst (find_remote_module_base (R:=R) os process_id module_name tr)
     = Next (Some base)
     <->
     invalid_snapshot os snap = false /\
     exists before me after,
       Module32Walk os snap = before ++ me :: after /\
       Forall (fun e => ~ same_name (szModule e) module_name) before /\
       same_name (szModule me) module_name /\
       modBaseAddr me = base /\ base <> 0)
  /\
  snd (find_remote_module_base (R:=R) os process_id module_name tr)
  = tr ++ (if invalid_snapshot os snap
           then [EvCreateToolhelp32Snapshot process_id]
           else [EvCreateToolhelp32Snapshot process_id;
                 EvModule32Walk snap; EvCloseHandle snap]).
Proof.
  intros snap.
  cbv [find_remote_module_base find_remote_module_base_body call bind emit
       return_].
  fold snap. fold (invalid_snapshot os snap).
  destruct (invalid_snapshot os snap); cbn [fst snd]; split.
  - intros base. split; [discriminate | intros [H _]; discriminate H].
  - reflexivity.
  - intros base. rewrite <- walk_modules_found. split.
    + intros [= ->]. split; reflexivity.
    + intros [_ ->]. reflexivity.
  - rewrite <- !app_assoc. reflexivity.
Qed.

(** X7: [find_process_by_name] walks the processes in enumeration order.
    It returns the pid of the first process whose lower-cased name is the
    lower-cased request, provided every process before it has a name; it
    returns [None] exactly when every process has a name and none has the
    requested one; and [AttributeError] leaves it exactly when a process
    without a name comes before any match. *)
Theorem find_process_by_name_first_match os process_name :
  (forall pid,
     find_process_by_name os process_name = inr (Some pid) <->
     exists before name after,
       process_iter os = before ++ (pid, Some name) :: after /\
       Forall (other_process process_name) before /\
       same_name name process_name)
  /\
  (find_process_by_name os process_name = inr None <->
   Forall (other_process process_name) (process_iter os))
  /\
  (forall e,
     find_process_by_name os process_name = inl e <->
     e = AttributeError /\
     exists before pid after,
       process_iter os = before ++ (pid, None) :: after /\
       Forall (other_process process_name) before).
Proof.
  unfold find_process_by_name, other_process, same_name.
  induction (process_iter os) as [|[p [n|]] rest (IHsome & IHnone & IHerr)];
    cbn [first_process].
  - split; [|split].
    + intros pid. split; [discriminate|].
      intros (before & name & after & H & _). destruct before; discriminate H.
    + split; [constructor | reflexivity].
    + intros e. split; [discriminate|].
      intros (_ & before & pid & after & H & _). destruct before; discriminate H.
  - destruct (String.eqb (lower n) (lower process_name)) eqn:E.
    + apply String.eqb_eq in E. split; [|split].
      * intros pid. split.
        -- intros [= <-]. exists [], n, rest. repeat split; auto.
        -- intros (before & name & after & H & Hbefore & Hname).
           destruct before as [|b before]; cbn [app] in H.
           ++ injection H as -> _. reflexivity.
           ++ injection H as <- _. inversion Hbefore as [|? ? Hb _].
              destruct Hb as (n' & Hn' & Hb). cbn [snd] in Hn'.
              injection Hn' as <-. contradiction.
      * split; [discriminate|].
        intros H. inversion H as [|? ? Hb _].
        destruct Hb as (n' & Hn' & Hb). cbn [snd] in Hn'.
        injection Hn' as <-. contradiction.
      * intros e. split; [discriminate|].
        intros (_ & before & pid & after & H & Hbefore).
        destruct before as [|b before]; cbn [app] in H; [discriminate H|].
        injection H as <- _. inversion Hbefore as [|? ? Hb _].
        destruct Hb as (n' & Hn' & Hb). cbn [snd] in Hn'.
        injection Hn' as <-. contradiction.
    + apply String.eqb_neq in E.
      assert (Hhead : exists name, snd (p, Some n) = Some name
                                   /\ lower name <> lower process_name)
        by (exists n; split; [reflexivity | exact E]).
      split; [|split].
      * intros pid. rewrite IHsome. split.
        -- intros (before & name & after & -> & Hbefore & Hname).
           exists ((p, Some n) :: before), name, after.
           repeat split; try assumption. constructor; assumption.
        -- intros (before & name & after & H & Hbefore & Hname).
           destruct before as [|b before]; cbn [app] in H.
           ++ injection H as _ -> _. contradiction.
           ++ injection H as _ ->. inversion Hbefore.
              exists before, name, after. repeat split; assumption.
      * rewrite IHnone. split.
        -- intros H. constructor; assumption.
        -- intros H. inversion H. assumption.
      * intros e. rewrite IHerr. split.
        -- intros (-> & before & pid & after & -> & Hbefore).
           split; [reflexivity|].
           exists ((p, Some n) :: before), pid, after.
           split; [reflexivity|]. constructor; assumption.
        -- intros (-> & before & pid & after & H & Hbefore).
           split; [reflexivity|].
           destruct before as [|b before]; cbn [app] in H; [discriminate H|].
           injection H as _ ->. inversion Hbefore.
           exists before, pid, after. split; [reflexivity | assumption].
  - split; [|split].
    + intros pid. split; [discriminate|].
      intros (before & name & after & H & Hbefore & _).
      destruct before as [|b before]; cbn [app] in H; [discriminate H|].
      injection H as <- _. inversion Hbefore as [|? ? Hb _].
      destruct Hb as (n' & Hn' & _). discriminate Hn'.
    + split; [discriminate|].
      intros H. inversion H as [|? ? Hb _].
      destruct Hb as (n' & Hn' & _). discriminate Hn'.
    + intros e. split.
      * intros [= <-]. split; [reflexivity|].
        exists [], p, rest. split; [reflexivity | constructor].
      * intros (-> & _). reflexivity.
Qed.

Example find_remote_module_base_null_base :
  run (find_remote_module_base (R:=unit) module_target 1234 "kernel32.dll")
  = (Next None,
     [EvCreateToolhelp32Snapshot 1234; EvModule32Walk 0x60; EvCloseHandle 0x60]).
Proof. reflexivity. Qed.

(* ================================================================== *)
(** ** Every path through [inject_dll] *)

Lemma app_snoc2 {A} (l : list A) x y : (l ++ [x]) ++ [y] = l ++ [x; y].
Proof. now rewrite <- app_assoc. Qed.

Lemma reads_only_filter_threads evs :
  forallb is_read evs = true -> filter is_create_thread evs = [].
Proof.
  induction evs as [|e evs IH]; cbn [forallb filter]; [reflexivity|].
  rewrite andb_true_iff. intros [He Hevs]. rewrite (IH Hevs).
  destruct e; try discriminate He; reflexivity.
Qed.

Ltac split_condition :=
  match goal with
  | |- context [WriteProcessMemory ?o ?h ?a ?d ?n] =>
      destruct (WriteProcessMemory o h a d n) as [? ?] eqn:?
  | |- context [if ?c then _ else _] =>
      lazymatch c with
      | context [if _ then _ else _] => fail
      | context [match _ with _ => _ end] => fail
      | _ => destruct c eqn:?
      end
  end;
  cbv beta iota zeta.

Ltac in_events H :=
  repeat rewrite in_app_iff in H; cbn [In] in H;
  repeat match type of H with
         | _ \/ _ => destruct H as [H|H]
         end;
  try discriminate H; try contradiction;
  try (match goal with
       | Hr : forallb is_read ?evs = true |- _ =>
           apply (in_reads_only _ _ Hr) in H; discriminate H
       end).

(** A call never ends in the caller's [return]. *)
Lemma find_remote_export_outcome {R} os h_process module_base function_name tr :
  match fst (find_remote_export (R:=R) os h_process module_base
               function_name tr) with
  | Return _ => False
  | _ => True
  end.
Proof.
  unfold find_remote_export, call.
  destruct (find_remote_export_body os h_process module_base function_name tr)
    as [[a|r|e] tr1]; exact I.
Qed.

(** The two places where a run of [inject_dll] depends on the remote
    resolvers. *)
Ltac split_resolution :=
  match goal with
  | |- context [walk_modules ?n ?es] =>
      destruct (walk_modules n es) as [?|]; cbv beta iota zeta
  | |- context [find_remote_export ?o ?h ?b ?n ?t0] =>
      let evs := fresh "evs" in
      let Hevs := fresh "Hevs" in
      let Hreads := fresh "Hreads" in
      let tr1 := fresh "tr1" in
      let Hout := fresh "Hout" in
      destruct (reads_only_find_remote_export (R:=bool) o h b n t0)
        as (evs & Hevs & Hreads);
      pose proof (find_remote_export_outcome (R:=bool) o h b n t0) as Hout;
      destruct (find_remote_export (R:=bool) o h b n t0)
        as [[[?|]|?|?] tr1];
      cbn [fst] in Hout; try contradiction;
      cbn [snd] in Hevs; subst tr1; cbv beta iota zeta
  end.

Ltac all_paths := repeat first [split_condition | split_resolution].

Section InjectionPaths.

Context {R : Type}.
Variable os : OS.
Variable process_id : Z.
Variable dll_path : string.

Let payload : bytes := encode_utf8 (abspath os dll_path) ++ [x00].
Let dll_size : Z := Z.of_nat (List.length payload).
Let h_process : Z := OpenProcess os process_id.
Let remote_memory : Z := VirtualAllocEx os h_process dll_size.
Let target_32bit : bool := IsWow64Process os h_process.

Ltac start_paths :=
  unfold_inject;
  fold payload dll_size h_process; fold target_32bit; fold remote_memory.

(** X8: [inject_dll] returns [True] only after a remote thread was
    created in the opened process, with a non-NULL handle, and the last
    two things it did were closing that thread handle and then the
    process handle. *)
Theorem inject_dll_true_closes_both_handles :
  fst (run (inject_dll (R:=R) os process_id dll_path)) = Next true ->
  exists tr load_library_addr,
    snd (run (inject_dll (R:=R) os process_id dll_path))
    = tr ++ [EvCloseHandle
               (CreateRemoteThread os h_process load_library_addr remote_memory);
             EvCloseHandle h_process]
    /\ In (EvCreateRemoteThread h_process load_library_addr remote_memory) tr
    /\ CreateRemoteThread os h_process load_library_addr remote_memory <> 0.
Proof.
  start_paths. all_paths; cbn [fst snd]; intros H; try discriminate H.
  all: match goal with
       | |- context [?A ++ [EvCloseHandle (CreateRemoteThread _ _ ?ad _)]] =>
           exists A, ad
       end.
  all: split; [apply app_snoc2|].
  all: split; [rewrite !in_app_iff; cbn [In]; tauto|].
  all: apply Z.eqb_neq; assumption.
Qed.

(** X9: [inject_dll] asks for at most one remote thread per call, always
    in the process it opened and with the memory it allocated there as
    the thread's parameter. *)
Theorem inject_dll_one_thread_on_allocated_memory :
  (thread_count (snd (run (inject_dll (R:=R) os process_id dll_path))) <= 1)%nat
  /\
  forall h start param,
    In (EvCreateRemoteThread h start param)
       (snd (run (inject_dll (R:=R) os process_id dll_path))) ->
    h = h_process /\ param = remote_memory.
Proof.
  start_paths. all_paths; cbn [fst snd]; split.
  all: try (unfold thread_count; rewrite ?filter_app;
            rewrite ?(reads_only_filter_threads _ Hreads);
            cbn [filter is_create_thread app List.length]; lia).
  all: intros h start param H; in_events H.
  all: injection H as <- _ <-; split; reflexivity.
Qed.

(** X10: the range error is printed only for a WoW64 target whose
    resolved LoadLibraryA address, the one printed just before, is above
    0xFFFFFFFF; the call then returns [False]. *)
Theorem inject_dll_range_error_only_beyond_32_bits :
  In (EvPrint ErrExceeds32BitRange)
     (snd (run (inject_dll (R:=R) os process_id dll_path))) ->
  target_32bit = true /\
  fst (run (inject_dll (R:=R) os process_id dll_path)) = Next false /\
  exists a,
    a > 0xFFFFFFFF /\
    In (EvPrint (MsgLoadLibraryAt a))
       (snd (run (inject_dll (R:=R) os process_id dll_path))).
Proof.
  start_paths. all_paths; cbn [fst snd]; intros H; in_events H.
  all: match goal with
       | Hg : _ && (?a >? 4294967295) = true |- _ =>
           apply andb_true_iff in Hg; destruct Hg as [Ht Ha];
           split; [exact Ht|]; split; [reflexivity|];
           exists a; split; [lia|]; rewrite !in_app_iff; cbn [In]; tauto
       end.
Qed.

End InjectionPaths.

(* ================================================================== *)
(** ** What can be raised *)

Lemma never_exits_ret {R A} (a : A) : never_exits (R:=R) (ret a).
Proof. intros tr e H. discriminate H. Qed.

Lemma never_exits_return {R A} (r : R) : never_exits (A:=A) (return_ r).
Proof. intros tr e H. discriminate H. Qed.

Lemma never_exits_or_raise {R A} e (o : option A) :
  (forall code, e <> SystemExit code) ->
  never_exits (R:=R) (or_raise e o).
Proof.
  intros He tr e' H. destruct o; [discriminate H|].
  injection H as <-. exact He.
Qed.

Lemma never_exits_read {R} os h addr size :
  never_exits (R:=R) (read_process_memory os h addr size).
Proof.
  intros tr e H. unfold read_process_memory in H.
  destruct (ReadProcessMemory os tr h addr size). discriminate H.
Qed.

Lemma never_exits_bind {R A B} (c : M R A) (k : A -> M R B) :
  never_exits c ->
  (forall a, never_exits (k a)) ->
  never_exits (bind c k).
Proof.
  intros Hc Hk tr e H. unfold bind in H. specialize (Hc tr).
  destruct (c tr) as [[a|r|e'] tr1]; cbn [fst] in *.
  - exact (Hk a tr1 e H).
  - discriminate H.
  - injection H as <-. apply Hc. reflexivity.
Qed.

Lemma never_exits_call {R R'} (body : M R R) :
  never_exits body ->
  never_exits (R:=R') (call body).
Proof.
  intros Hb tr e H. unfold call in H. specialize (Hb tr).
  destruct (body tr) as [[a|r|e'] tr1]; cbn [fst] in *;
    [discriminate H | discriminate H |].
  injection H as <-. apply Hb. reflexivity.
Qed.

Lemma never_exits_search os h_process module_base func_name_bytes
    name_rvas_data ordinals_data func_rvas_data idx :
  never_exits
    (search_names os h_process module_base func_name_bytes
       name_rvas_data ordinals_data func_rvas_data idx).
Proof.
  induction idx as [|i rest IH]; cbn [search_names].
  - apply never_exits_ret.
  - apply never_exits_bind;
      [apply never_exits_or_raise; intros code; discriminate|].
    intros name_rva.
    apply never_exits_bind; [apply never_exits_read|]. intros [ok name_buf].
    destruct (bytes_eqb (split0 name_buf) func_name_bytes); [|exact IH].
    apply never_exits_bind;
      [apply never_exits_or_raise; intros code; discriminate|].
    intros ordinal.
    apply never_exits_bind;
      [apply never_exits_or_raise; intros code; discriminate|].
    intros func_rva.
    apply never_exits_return.
Qed.

Ltac never_exits_step :=
  first
    [ apply never_exits_ret
    | apply never_exits_return
    | apply never_exits_or_raise; intros ?; discriminate
    | apply never_exits_read
    | apply never_exits_search
    | apply never_exits_bind; [|intros ?]
    | match goal with
      | |- never_exits (match ?x with (_, _) => _ end) => destruct x
      | |- never_exits (if ?c then _ else _) => destruct c
      end ].

Lemma find_remote_export_never_exits {R} os h_process module_base
    function_name :
  never_exits
    (find_remote_export (R:=R) os h_process module_base function_name).
Proof.
  apply never_exits_call. unfold find_remote_export_body.
  unfold unpack_from_I, unpack_from_H.
  repeat never_exits_step.
Qed.

(** X11: a requested name that is not ASCII is refused before the target
    is touched: [find_remote_export] raises [UnicodeEncodeError] instead of
    returning [None], and it has issued no read. *)
Theorem find_remote_export_rejects_non_ascii_name {R} os h_process
    module_base function_name tr :
  forallb is_ascii (list_ascii_of_string function_name) = false ->
  find_remote_export (R:=R) os h_process module_base function_name tr
  = (Raise UnicodeEncodeError, tr).
Proof.
  intros Hname. unfold find_remote_export, call, find_remote_export_body.
  unfold encode_ascii. rewrite Hname. reflexivity.
Qed.

Lemma find_remote_export_rejects_non_ascii_name_witness :
  find_remote_export (R:=unit)
    (reader_os (memory_read (kernel32_image 0x10000))) 7 0x10000
    (String (ascii_of_N 233) "cole") []
  = (Raise UnicodeEncodeError, []).
Proof.
  apply (find_remote_export_rejects_non_ascii_name
           (reader_os (memory_read (kernel32_image 0x10000))) 7 0x10000
           (String (ascii_of_N 233) "cole") []).
  vm_compute. reflexivity.
Defined.

(* ================================================================== *)
(** ** How [inject_dll] and [main] end *)

Ltac split_resolution_raising :=
  match goal with
  | |- context [walk_modules ?n ?es] =>
      destruct (walk_modules n es) as [?|]; cbv beta iota zeta
  | |- context [find_remote_export ?o ?h ?b "LoadLibraryA" ?t0] =>
      let evs := fresh "evs" in
      let Hevs := fresh "Hevs" in
      let Hreads := fresh "Hreads" in
      let tr1 := fresh "tr1" in
      let Hout := fresh "Hout" in
      let Hraise := fresh "Hraise" in
      destruct (reads_only_find_remote_export (R:=bool) o h b "LoadLibraryA" t0)
        as (evs & Hevs & Hreads);
      pose proof (find_remote_export_outcome (R:=bool) o h b "LoadLibraryA" t0)
        as Hout;
      pose proof (find_remote_export_never_exits (R:=bool)
                    o h b "LoadLibraryA" t0) as Hraise;
      destruct (find_remote_export (R:=bool) o h b "LoadLibraryA" t0)
        as [[[?|]|?|?] tr1];
      cbn [fst] in Hout, Hraise; try contradiction;
      try (specialize (Hraise _ eq_refl));
      cbn [snd] in Hevs; subst tr1; cbv beta iota zeta
  end.

Ltac all_paths_raising :=
  repeat first [split_condition | split_resolution_raising].

Section InjectionOutcomes.

Context {R : Type}.
Variable os : OS.
Variable process_id : Z.
Variable dll_path : string.

Let payload : bytes := encode_utf8 (abspath os dll_path) ++ [x00].
Let dll_size : Z := Z.of_nat (List.length payload).
Let h_process : Z := OpenProcess os process_id.
Let remote_memory : Z := VirtualAllocEx os h_process dll_size.
Let target_32bit : bool := IsWow64Process os h_process.
Let cross_arch : bool := is_self_64bit os && target_32bit.

Ltac start_paths :=
  unfold_inject;
  fold payload dll_size h_process; fold target_32bit; fold cross_arch;
  fold remote_memory.




(** X15: when VirtualAllocEx returns NULL, [inject_dll] prints the
    allocation error and returns [False]; nothing is written, resolved or
    started, and the process handle is closed. *)
Theorem inject_dll_allocation_failure_aborts :
  path_exists os dll_path = true ->
  h_process <> 0 ->
  remote_memory = 0 ->
  run (inject_dll (R:=R) os process_id dll_path)
  = (Next false,
     [EvPrint (MsgOpening process_id); EvOpenProcess process_id;
      EvIsWow64Process h_process; EvPrint (MsgInjector (is_self_64bit os));
      EvPrint (MsgTarget target_32bit)]
     ++ (if cross_arch then [EvPrint MsgCrossArch] else [])
     ++ [EvVirtualAllocEx h_process dll_size;
         EvPrint (ErrAllocFailed (get_last_error os));
         EvCloseHandle h_process]).
Proof.
  intros Hpath Hopen Halloc. start_paths.
  rewrite Hpath, Halloc. cbn [negb Z.eqb].
  destruct (h_process =? 0) eqn:E; [apply Z.eqb_eq in E; contradiction|].
  destruct cross_arch; reflexivity.
Qed.

(** X16: on the cross-architecture path, when the target's module list
    has no kernel32.dll (or the snapshot failed), [inject_dll] says so and
    returns [False] without a single remote read and without a thread;
    the process handle is closed. *)
Theorem inject_dll_without_remote_kernel32 :
  let snap := CreateToolhelp32Snapshot os process_id in
  path_exists os dll_path = true ->
  h_process <> 0 ->
  remote_memory <> 0 ->
  fst (WriteProcessMemory os h_process remote_memory payload dll_size) = true ->
  cross_arch = true ->
  invalid_snapshot os snap = true
  \/ walk_modules "kernel32.dll" (Module32Walk os snap) = None ->
  exists tr,
    run (inject_dll (R:=R) os process_id dll_path)
    = (Next false, tr ++ [EvPrint ErrNoKernel32; EvCloseHandle h_process])
    /\ existsb is_read tr = false
    /\ thread_count tr = 0%nat.
Proof.
  intros snap Hpath Hopen Halloc Hwrite Hcross Hmissing. start_paths.
  rewrite Hpath, Hcross. cbn [negb].
  destruct (h_process =? 0) eqn:E; [apply Z.eqb_eq in E; contradiction|].
  destruct (remote_memory =? 0) eqn:E'; [apply Z.eqb_eq in E'; contradiction|].
  destruct (WriteProcessMemory os h_process remote_memory payload dll_size)
    as [ok written].
  cbn [fst] in Hwrite. subst ok. cbn [negb].
  fold snap. fold (invalid_snapshot os snap).
  destruct (invalid_snapshot os snap) eqn:Hsnap.
  - eexists. split; [rewrite app_snoc2; reflexivity|].
    split; reflexivity.
  - destruct Hmissing as [Hmissing | Hmissing]; [discriminate Hmissing|].
    rewrite Hmissing.
    eexists. split; [rewrite app_snoc2; reflexivity|].
    split; reflexivity.
Qed.

End InjectionOutcomes.

Ltac unfold_main :=
  cbv [run main inject_dll call inject_dll_body inject_try resolve_load_library
       find_remote_module_base find_remote_module_base_body is_target_32bit
       try_finally bind when print emit ret return_ raise value_or_raise].

Lemma find_process_by_name_error os process_name e :
  find_process_by_name os process_name = inl e -> e = AttributeError.
Proof.
  unfold find_process_by_name.
  induction (process_iter os) as [|[p [n|]] rest IH]; cbn [first_process].
  - discriminate.
  - destruct (String.eqb (lower n) (lower process_name)); [discriminate|].
    exact IH.
  - intros [= <-]. reflexivity.
Qed.


(** X18: the exit status of [main] is 0 or 1, and it is 0 only when the
    run printed that the injection succeeded after asking for exactly one
    remote thread. *)
Theorem main_exit_status os :
  (exit_status (fst (run (main os))) = 0
   \/ exit_status (fst (run (main os))) = 1)
  /\
  (exit_status (fst (run (main os))) = 0 ->
   In (EvPrint MsgInjectionSuccessful) (snd (run (main os))) /\
   thread_count (snd (run (main os))) = 1%nat).
Proof.
  unfold_main. fold (chosen_dll_path os).
  destruct (path_exists os (chosen_dll_path os)) eqn:Hpath; cbn [negb];
    [|split; [right; reflexivity | intros H; discriminate H]].
  destruct (find_process_by_name os TARGET_PROCESS) as [e|[process_id|]]
    eqn:Hfind; cbv beta iota zeta.
  { apply find_process_by_name_error in Hfind. subst e.
    split; [right; reflexivity | intros H; discriminate H]. }
  2: { split; [right; reflexivity | intros H; discriminate H]. }
  all_paths_raising;
    try match goal with
        | Hraise : forall code, ?e <> SystemExit code |- _ =>
            destruct e; try (exfalso; eapply Hraise; reflexivity)
        end;
    cbn [fst snd exit_status]; split;
    try (left; reflexivity); try (right; reflexivity);
    intros H; try discriminate H.
  all: split; [rewrite !in_app_iff; cbn [In]; tauto|].
  all: unfold thread_count; rewrite ?filter_app;
    rewrite ?(reads_only_filter_threads _ Hreads);
    cbn [filter is_create_thread app List.length]; reflexivity.
Qed.

(* ================================================================== *)
(** ** The path statements at concrete scenarios *)

Lemma inject_dll_true_closes_both_handles_witness :
  exists tr load_library_addr,
    snd (run (inject_dll (R:=unit) same_mode_target 1234 dll))
    = tr ++ [EvCloseHandle
               (CreateRemoteThread same_mode_target 0x50 load_library_addr
                  0x200000);
             EvCloseHandle 0x50]
    /\ In (EvCreateRemoteThread 0x50 load_library_addr 0x200000) tr
    /\ CreateRemoteThread same_mode_target 0x50 load_library_addr 0x200000 <> 0.
Proof.
  apply (inject_dll_true_closes_both_handles same_mode_target 1234 dll).
  vm_compute. reflexivity.
Defined.

Lemma inject_dll_range_error_only_beyond_32_bits_witness :
  IsWow64Process high_kernel32 (OpenProcess high_kernel32 1234) = true /\
  fst (run (inject_dll (R:=unit) high_kernel32 1234 dll)) = Next false /\
  exists a,
    a > 0xFFFFFFFF /\
    In (EvPrint (MsgLoadLibraryAt a))
       (snd (run (inject_dll (R:=unit) high_kernel32 1234 dll))).
Proof.
  apply (inject_dll_range_error_only_beyond_32_bits high_kernel32 1234 dll).
  find_in.
Defined.



Lemma inject_dll_allocation_failure_aborts_witness :
  run (inject_dll (R:=unit) allocation_refused 1234 dll)
  = (Next false,
     [EvPrint (MsgOpening 1234); EvOpenProcess 1234; EvIsWow64Process 0x50;
      EvPrint (MsgInjector true); EvPrint (MsgTarget false);
      EvVirtualAllocEx 0x50 15; EvPrint (ErrAllocFailed 5);
      EvCloseHandle 0x50]).
Proof.
  apply (inject_dll_allocation_failure_aborts allocation_refused 1234 dll).
  - reflexivity.
  - vm_compute. discriminate.
  - reflexivity.
Defined.

Lemma inject_dll_without_remote_kernel32_witness :
  exists tr,
    run (inject_dll (R:=unit) no_kernel32 1234 dll)
    = (Next false, tr ++ [EvPrint ErrNoKernel32; EvCloseHandle 0x50])
    /\ existsb is_read tr = false
    /\ thread_count tr = 0%nat.
Proof.
  apply (inject_dll_without_remote_kernel32 no_kernel32 1234 dll).
  - reflexivity.
  - vm_compute. discriminate.
  - vm_compute. discriminate.
  - reflexivity.
  - reflexivity.
  - right. reflexivity.
Defined.


Lemma inject_dll_closes_process_handle_witness :
  exists tr,
    snd (run (inject_dll (R:=unit) same_mode_target 1234 dll))
    = tr ++ [EvCloseHandle (OpenProcess same_mode_target 1234)].
Proof.
  apply (inject_dll_closes_process_handle same_mode_target 1234 dll).
  - reflexivity.
  - vm_compute. discriminate.
Defined.

Example main_without_payload :
  run (main payload_missing)
  = (Raise (SystemExit 1),
     [EvPrint (MsgBanner dll true); EvPrint (ErrDllNotFound dll);
      EvPrint MsgBuildFirst]).
Proof. reflexivity. Qed.

(* ================================================================== *)
(** ** The cross-architecture path end to end *)

Lemma name_reads_are_reads h base rvas :
  forallb is_read (map (name_read h base) rvas) = true.
Proof. induction rvas as [|r rvas IH]; [reflexivity | exact IH]. Qed.

Lemma reads_only_no_local evs :
  forallb is_read evs = true -> existsb is_local_resolution evs = false.
Proof.
  induction evs as [|e evs IH]; cbn [forallb existsb]; [reflexivity|].
  rewrite andb_true_iff. intros [He Hevs]. rewrite (IH Hevs).
  destruct e; try discriminate He; reflexivity.
Qed.

Section CrossArchitecture.

Context {R : Type}.
Variable os : OS.
Variable m : memory.
Variable process_id : Z.
Variable dll_path : string.
Variable kernel32_base : Z.
Variable l : pe_layout.
Variable t : export_table.

Let payload : bytes := encode_utf8 (abspath os dll_path) ++ [x00].
Let dll_size : Z := Z.of_nat (List.length payload).
Let h_process : Z := OpenProcess os process_id.
Let remote_memory : Z := VirtualAllocEx os h_process dll_size.
Let target_32bit : bool := IsWow64Process os h_process.
Let cross_arch : bool := is_self_64bit os && target_32bit.
Let snap : Z := CreateToolhelp32Snapshot os process_id.

(** X19: the cross-architecture path, end to end.  With a 64-bit
    injector and a WoW64 target whose kernel32.dll is a well-formed,
    readable image exporting LoadLibraryA below 4 GiB, once the payload
    path is written [inject_dll] asks for exactly one remote thread, in
    the target, starting at kernel32's base plus the export's RVA and
    taking the allocated memory as its parameter; the injector's own
    GetProcAddress is not consulted. *)
Theorem inject_dll_cross_architecture_start_address load_library_addr :
  ReadProcessMemory os = memory_read m ->
  path_exists os dll_path = true ->
  h_process <> 0 ->
  remote_memory <> 0 ->
  fst (WriteProcessMemory os h_process remote_memory payload dll_size) = true ->
  cross_arch = true ->
  invalid_snapshot os snap = false ->
  walk_modules "kernel32.dll" (Module32Walk os snap) = Some kernel32_base ->
  well_formed m kernel32_base l t ->
  Forall (fun s => (List.length s < 128)%nat) (nameTable t) ->
  resolve_spec kernel32_base t (ascii_bytes "LoadLibraryA")
  = Some load_library_addr ->
  load_library_addr <= 0xFFFFFFFF ->
  In (EvCreateRemoteThread h_process load_library_addr remote_memory)
     (snd (run (inject_dll (R:=R) os process_id dll_path)))
  /\ thread_count (snd (run (inject_dll (R:=R) os process_id dll_path))) = 1%nat
  /\ existsb is_local_resolution
       (snd (run (inject_dll (R:=R) os process_id dll_path))) = false.
Proof.
  intros Hos Hpath Hopen Halloc Hwrite Hcross Hsnap Hwalk Hwf Hshort Hres Hlow.
  unfold_inject.
  fold payload dll_size h_process. fold target_32bit. fold cross_arch.
  fold remote_memory. rewrite Hpath, Hcross. cbn [negb].
  destruct (h_process =? 0) eqn:E; [apply Z.eqb_eq in E; contradiction|].
  destruct (remote_memory =? 0) eqn:E'; [apply Z.eqb_eq in E'; contradiction|].
  destruct (WriteProcessMemory os h_process remote_memory payload dll_size)
    as [ok written].
  cbn [fst] in Hwrite. subst ok. cbn [negb].
  fold snap. fold (invalid_snapshot os snap). rewrite Hsnap, Hwalk.
  cbv beta iota zeta.
  rewrite (find_remote_export_on_well_formed os m l t h_process kernel32_base
             "LoadLibraryA" (ascii_bytes "LoadLibraryA") _ Hos Hwf
             (shorter_names_fit _ Hshort) eq_refl).
  rewrite Hres. cbv beta iota zeta.
  assert (Hguard : target_32bit && (load_library_addr >? 4294967295) = false).
  { apply andb_false_iff. right. lia. }
  rewrite Hguard.
  pose proof (name_reads_are_reads h_process kernel32_base
                (firstn (candidates_read (ascii_bytes "LoadLibraryA")
                           (nameTable t)) (lay_name_rvas l))) as Hreads.
  unfold header_reads.
  repeat split_condition; cbn [fst snd].
  all: split; [rewrite !in_app_iff; cbn [In]; tauto|].
  all: split;
    [ unfold thread_count; rewrite ?filter_app;
      rewrite ?(reads_only_filter_threads _ Hreads);
      cbn [filter is_create_thread is_read app List.length]; reflexivity
    | rewrite ?existsb_app; rewrite ?(reads_only_no_local _ Hreads);
      cbn [existsb is_local_resolution orb]; reflexivity ].
Qed.

End CrossArchitecture.

Lemma inject_dll_cross_architecture_start_address_witness :
  In (EvCreateRemoteThread 0x50 (0x10000 + 0x1111) 0x200000)
     (snd (run (inject_dll (R:=unit) wow64_target 1234 dll)))
  /\ thread_count (snd (run (inject_dll (R:=unit) wow64_target 1234 dll))) = 1%nat
  /\ existsb is_local_resolution
       (snd (run (inject_dll (R:=unit) wow64_target 1234 dll))) = false.
Proof.
  apply (inject_dll_cross_architecture_start_address wow64_target
           (kernel32_image 0x10000) 1234 dll 0x10000
           (image_layout kernel32_names) kernel32_table (0x10000 + 0x1111)).
  - reflexivity.
  - reflexivity.
  - vm_compute. discriminate.
  - vm_compute. discriminate.
  - reflexivity.
  - reflexivity.
  - reflexivity.
  - reflexivity.
  - solve_well_formed.
  - solve_short.
  - vm_compute. reflexivity.
  - vm_compute. discriminate.
Defined.
